(** * Streaming mask propagation endpoint of the SAM 2 demo backend

    A shallow embedding of [demo/backend/server/app.py]: the
    [/propagate_in_video] handler, the generator
    [gen_track_with_mask_stream] that it wraps in a streaming response,
    and the multipart framing of the messages the generator yields.

    Conventions.
    - A Python [str] is a [string] holding the code units of its UTF-8
      encoding; [bytes] is [list byte]; [s.encode("UTF-8")] is therefore
      [list_byte_of_string s].
    - The value of [request.json] is a [pyval]; a [dict] is an association
      list read with [dict_get], in insertion order.
    - A generator is a state machine ([gen_state]) with the two entry points
      the interpreter gives it, [gen_next] and [gen_close]; everything it
      does to the outside world is recorded as a list of [event]s. *)

From Stdlib Require Import List String Ascii ZArith Lia Bool Arith.
From Stdlib.Strings Require Import Byte.
Import ListNotations.
Local Open Scope string_scope.
Local Open Scope list_scope.
Set Warnings "-register-all,-notation-for-abbreviation".

(** ** Python values and dictionaries *)

Definition bytes := list byte.

Inductive pyval : Type :=
| PNone
| PBool (b : bool)
| PInt (z : Z)
| PFloat (repr : string)
| PStr (s : string)
| PList (l : list pyval)
| PDict (d : list (string * pyval)).

(** [d.get(key)] on the association list of a dict. *)
Fixpoint dict_lookup (d : list (string * pyval)) (key : string) : option pyval :=
  match d with
  | [] => None
  | (k, v) :: d' => if String.eqb k key then Some v else dict_lookup d' key
  end.

(** [d.get(key, default)]; [d.get(key)] is [dict_get d key PNone]. *)
Definition dict_get (d : list (string * pyval)) (key : string) (default : pyval) : pyval :=
  match dict_lookup d key with
  | Some v => v
  | None => default
  end.

Inductive exn : Type :=
| AttributeError (msg : string)
| EngineError (kind : string).

(** [encode("UTF-8")] of a [str]. *)
Definition encode_utf8 (s : string) : bytes := list_byte_of_string s.

(** ** Frame message codec *)

Definition CRLF : bytes := [x0d; x0a].
Definition COLON_SP : bytes := [x3a; x20].
Definition DASHES : bytes := [x2d; x2d].

Definition byte_eqb (a b : byte) : bool := Byte.eqb a b.

Fixpoint is_prefix (p s : bytes) : bool :=
  match p, s with
  | [], _ => true
  | _ :: _, [] => false
  | a :: p', b :: s' => byte_eqb a b && is_prefix p' s'
  end.

(** Cut [s] at the first occurrence of [sep]: what is before it and what
    is after it. *)
Fixpoint split_on (sep s : bytes) : option (bytes * bytes) :=
  if is_prefix sep s then Some ([], skipn (List.length sep) s)
  else match s with
       | [] => None
       | c :: s' =>
           match split_on sep s' with
           | Some (a, b) => Some (c :: a, b)
           | None => None
           end
       end.

(** [sep] occurs nowhere in [s]. *)
Definition free_of (sep s : bytes) : Prop := split_on sep s = None.

(** Remove a trailing [suf], if it is there. *)
Definition strip_suffix (suf s : bytes) : option bytes :=
  let n := (List.length s - List.length suf)%nat in
  if (List.length suf <=? List.length s)%nat
     && is_prefix suf (skipn n s) && is_prefix (skipn n s) suf
  then Some (firstn n s) else None.

Definition Headers := list (string * string).

Module MultipartResponseBuilder.

(** Modelled from the spec: the class [MultipartResponseBuilder] of
    [inference/multipart.py] lives in another module of the repository; a
    builder holds the bytes of the message built so far. *)
Record t := { message : bytes }.

(** Modelled from the spec: one header line, [key: value] and a line
    terminator. *)
Definition header_line (kv : string * string) : bytes :=
  encode_utf8 (fst kv) ++ COLON_SP ++ encode_utf8 (snd kv) ++ CRLF.

(** Modelled from the spec: [MultipartResponseBuilder.build], of which the
    specification fixes the result: the boundary marker on a line of its
    own, one header line per pair in insertion order, a blank line, the raw
    body bytes and a closing line terminator. Line terminators are CRLF, as
    in multipart bodies. *)
Definition build (boundary : string) (headers : Headers) (body : bytes) : t :=
  {| message :=
       DASHES ++ encode_utf8 boundary ++ CRLF
       ++ List.concat (map header_line headers)
       ++ CRLF
       ++ body ++ CRLF |}.

(** Modelled from the spec: [get_message], the bytes of the built
    message. *)
Definition get_message (b : t) : bytes := message b.

End MultipartResponseBuilder.

(** [encode(boundary, headers, body)] of the codec contract. *)
Definition encode (boundary : string) (headers : Headers) (body : bytes) : bytes :=
  MultipartResponseBuilder.get_message
    (MultipartResponseBuilder.build boundary headers body).

(** Modelled from the spec: the header part of [decode]. Header lines are
    read up to the blank line; what follows the blank line is returned
    untouched. [fuel] bounds the number of lines read. *)
Fixpoint decode_headers (fuel : nat) (s : bytes) : option (Headers * bytes) :=
  match fuel with
  | O => None
  | S fuel' =>
      match split_on CRLF s with
      | None => None
      | Some ([], rest) => Some ([], rest)
      | Some (line, rest) =>
          match split_on COLON_SP line with
          | None => None
          | Some (k, v) =>
              match decode_headers fuel' rest with
              | None => None
              | Some (hs, tail) =>
                  Some ((string_of_list_byte k, string_of_list_byte v) :: hs, tail)
              end
          end
      end
  end.

(** Modelled from the spec: [decode] is described only by the specification,
    as the inverse of [encode] on one message together with its boundary
    line; [None] is the [MalformedMessage] failure. *)
Definition decode (msg : bytes) : option (Headers * bytes) :=
  match split_on CRLF msg with
  | None => None
  | Some (first, rest) =>
      if is_prefix DASHES first then
        match decode_headers (S (List.length rest)) rest with
        | None => None
        | Some (hs, tail) =>
            match strip_suffix CRLF tail with
            | None => None
            | Some body => Some (hs, body)
            end
        end
      else None
  end.

(** ** The endpoint *)

(** A small error monad for the handler: a Python expression either has a
    value or raises. *)
Inductive result (A : Type) : Type :=
| Ok (a : A)
| Raise (e : exn).
Arguments Ok {A} a.
Arguments Raise {A} e.

Definition bind {A B : Type} (m : result A) (k : A -> result B) : result B :=
  match m with
  | Ok a => k a
  | Raise e => Raise e
  end.

Notation "'let*' x ':=' m 'in' k" := (bind m (fun x => k))
  (at level 10, x name, m at level 100, k at level 200).

(** [data is None] *)
Definition is_none (v : pyval) : bool :=
  match v with
  | PNone => true
  | _ => false
  end.

(** [data.get(key, default)] on an arbitrary value: only a dict has the
    method. *)
Definition py_get (data : pyval) (key : string) (default : pyval) : result pyval :=
  match data with
  | PDict d => Ok (dict_get d key default)
  | _ => Raise (AttributeError "get")
  end.

(** The request object as the generator constructs it,
    [PropagateInVideoRequest(type=..., session_id=..., start_frame_index=...,
    quick_test_mode=...)]: the class is a dataclass of
    [inference.data_types], which stores the keyword arguments as they are
    given. *)
Record PropagateInVideoRequest : Type := {
  type : string;
  session_id : pyval;
  start_frame_index : pyval;
  quick_test_mode : pyval
}.

(** The pair handed to [MultipartResponseBuilder.build] for one chunk. *)
Record FrameMessage : Type := {
  headers : Headers;
  body : bytes
}.

Inductive event : Type :=
| Acquire                                   (* autocast_context().__enter__() *)
| Release                                   (* autocast_context().__exit__(...) *)
| LogInfo (r : PropagateInVideoRequest)     (* logger.info(...) *)
| PrintFlush (r : PropagateInVideoRequest)       (* print(..., flush=True) *)
| EngineCall (r : PropagateInVideoRequest)  (* inference_api.propagate_in_video(request=r) *)
| Pull                                      (* next() on the engine's iterator *)
| Emit (m : bytes)                          (* a value yielded to the consumer *)
| Stop                                      (* StopIteration, seen by the consumer *)
| Error (e : exn)                           (* an exception, seen by the consumer *)
| StartResponse (status : Z) (content_type : option string).

(** What the consumer of a generator can do with it. *)
Inductive action : Type :=
| Next
| Close.

(** The body of a response made from a text, as the server iterates it: one
    chunk with the encoded text on the first [next], the end of the
    iteration afterwards; [done] tells that the chunk is out or the body
    closed. *)
Fixpoint run_text (text : string) (done : bool) (sched : list action) : list event :=
  match sched with
  | [] => []
  | Next :: sched' =>
      if done then Stop :: run_text text true sched'
      else Emit (encode_utf8 text) :: run_text text true sched'
  | Close :: sched' => run_text text true sched'
  end.

Section Endpoint.

(** The engine, [inference_api], is a collaborator: [chunk] is its
    [PropagateDataResponse], [to_json] the serialisation of one,
    [propagate] the call that returns the iterator over the frames and
    [enext] one [next()] on that iterator. *)
Variable chunk : Type.
Variable to_json : chunk -> string.
Variable E : Type.

Inductive pulled : Type :=
| Item (c : chunk) (e : E)
| Exhausted
| Failed (x : exn).

Variable propagate : PropagateInVideoRequest -> E.
Variable enext : E -> pulled.

(** The generator object: created and not yet started, suspended at its
    [yield] inside the [with] block, or finished. *)
Inductive gen_state : Type :=
| Created (boundary : string) (session_id start_frame_index quick_test_mode : pyval)
| Suspended (boundary : string) (e : E)
| Finished.

Definition frame_message (c : chunk) : FrameMessage :=
  {| headers := [ ("Content-Type", "application/json; charset=utf-8");
                  ("Frame-Current", "-1");
                  ("Frame-Total", "-1");
                  ("Mask-Type", "RLE[]") ];
     body := encode_utf8 (to_json c) |}.

(** The bytes yielded for one chunk. *)
Definition wire (boundary : string) (c : chunk) : bytes :=
  MultipartResponseBuilder.get_message
    (MultipartResponseBuilder.build boundary
       (headers (frame_message c)) (body (frame_message c))).

(** One turn of [for chunk in ...: yield ...], from the head of the loop
    to the next suspension or to the end of the [with] block. *)
Definition resume_loop (boundary : string) (e : E) : list event * gen_state :=
  match enext e with
  | Item c e' => ([Pull; Emit (wire boundary c)], Suspended boundary e')
  | Exhausted => ([Pull; Release; Stop], Finished)
  | Failed x => ([Pull; Release; Error x], Finished)
  end.

(** Calling the generator function runs none of its body. *)
Definition gen_track_with_mask_stream
    (boundary : string) (session_id start_frame_index quick_test_mode : pyval)
    : gen_state :=
  Created boundary session_id start_frame_index quick_test_mode.

(** [next(g)] *)
Definition gen_next (g : gen_state) : list event * gen_state :=
  match g with
  | Created boundary sid sfi qtm =>
      let request_data :=
        {| type := "propagate_in_video";
           session_id := sid;
           start_frame_index := sfi;
           quick_test_mode := qtm |} in
      let '(evs, g') := resume_loop boundary (propagate request_data) in
      (Acquire :: LogInfo request_data :: PrintFlush request_data
         :: EngineCall request_data :: evs, g')
  | Suspended boundary e => resume_loop boundary e
  | Finished => ([Stop], Finished)
  end.

(** [g.close()]: [GeneratorExit] is raised at the [yield] of a suspended
    generator and leaves the [with] block; a generator that never started
    or has finished is only marked as finished. *)
Definition gen_close (g : gen_state) : list event * gen_state :=
  match g with
  | Suspended _ _ => ([Release], Finished)
  | Created _ _ _ _ => ([], Finished)
  | Finished => ([], Finished)
  end.

Definition step (g : gen_state) (a : action) : list event * gen_state :=
  match a with
  | Next => gen_next g
  | Close => gen_close g
  end.

Fixpoint run (g : gen_state) (sched : list action) : list event :=
  match sched with
  | [] => []
  | a :: sched' => let '(evs, g') := step g a in evs ++ run g' sched'
  end.

Inductive payload : Type :=
| Text (s : string)
| Stream (g : gen_state).

(** A Flask response as the handler builds it; [None] for a content type
    the handler leaves to the framework. *)
Record Response : Type := {
  status : Z;
  mimetype : option string;
  response : payload
}.

Definition make_response (text : string) (code : Z) : Response :=
  {| status := code; mimetype := None; response := Text text |}.

(** [Response(frame, mimetype=m)]: the status is the framework's default,
    200. *)
Definition Response_stream (frame : gen_state) (m : string) : Response :=
  {| status := 200; mimetype := Some m; response := Stream frame |}.

(** The view function; [data] is the value of [request.json]. *)
Definition propagate_in_video (data : pyval) : result Response :=
  if is_none data then Ok (make_response "Invalid JSON" 400)
  else
    let* session_id := py_get data "session_id" PNone in
    let* start_frame_index := py_get data "start_frame_index" (PInt 0) in
    let* quick_test_mode := py_get data "quick_test_mode" (PBool false) in
    if is_none session_id then Ok (make_response "Missing session_id" 400)
    else
      let boundary := "frame" in
      let frame :=
        gen_track_with_mask_stream boundary session_id start_frame_index
          quick_test_mode in
      Ok (Response_stream frame
            (String.append "multipart/x-savi-stream; boundary=" boundary)).

(** The response called as a WSGI application: [start_response] receives
    the status and the content type, then the body, the one chunk of a
    text or the generator of a stream, is iterated by the server according
    to [sched]. *)
Definition wsgi_call (r : Response) (sched : list action) : list event :=
  StartResponse (status r) (mimetype r) ::
  match response r with
  | Text s => run_text s false sched
  | Stream g => run g sched
  end.

(** The engine's iterator, started in state [e], yields [items] and then
    ends: exhausted ([None]) or with an exception. *)
Inductive produces : E -> list chunk -> option exn -> Prop :=
| produces_end e : enext e = Exhausted -> produces e [] None
| produces_fail e x : enext e = Failed x -> produces e [] (Some x)
| produces_item e c e' l fin :
    enext e = Item c e' -> produces e' l fin -> produces e (c :: l) fin.

(** Projections of a trace. *)
Definition emitted (tr : list event) : list bytes :=
  flat_map (fun ev => match ev with Emit m => [m] | _ => [] end) tr.

Definition is_acquire (ev : event) : bool :=
  match ev with Acquire => true | _ => false end.
Definition is_release (ev : event) : bool :=
  match ev with Release => true | _ => false end.
Definition is_pull (ev : event) : bool :=
  match ev with Pull => true | _ => false end.
Definition is_emit (ev : event) : bool :=
  match ev with Emit _ => true | _ => false end.
Definition is_start_response (ev : event) : bool :=
  match ev with StartResponse _ _ => true | _ => false end.

Definition count (p : event -> bool) (tr : list event) : nat :=
  List.length (filter p tr).

End Endpoint.

Arguments Item {chunk E} c e.
Arguments Exhausted {chunk E}.
Arguments Failed {chunk E} x.
Arguments Created {E} boundary session_id start_frame_index quick_test_mode.
Arguments Suspended {E} boundary e.
Arguments Finished {E}.
Arguments Text {E} s.
Arguments Stream {E} g.
Arguments gen_track_with_mask_stream {E} boundary session_id start_frame_index
  quick_test_mode.
Arguments gen_close {E} g.
Arguments make_response {E} text code.
Arguments Response_stream {E} frame m.
Arguments propagate_in_video {E} data.
Arguments status {E} r.
Arguments mimetype {E} r.
Arguments response {E} r.

Arguments frame_message {chunk} to_json c.
Arguments wire {chunk} to_json boundary c.
Arguments resume_loop {chunk} to_json {E} enext boundary e.
Arguments gen_next {chunk} to_json {E} propagate enext g.
Arguments step {chunk} to_json {E} propagate enext g a.
Arguments run {chunk} to_json {E} propagate enext g sched.
Arguments wsgi_call {chunk} to_json {E} propagate enext r sched.
Arguments produces {chunk E} enext _ _ _.

(** Events that belong inside the [with] block once the loop runs, and
    events the consumer can still see after the block is left. *)
Definition in_scope (ev : event) : bool := is_pull ev || is_emit ev.

Definition after_scope (ev : event) : bool :=
  match ev with
  | Stop | Error _ => true
  | _ => false
  end.

(** The content type of the streaming response. *)
Definition STREAM_CONTENT_TYPE : string := "multipart/x-savi-stream; boundary=frame".

(** How the consumer sees the end of the engine's sequence. *)
Definition ending (fin : option exn) : event :=
  match fin with
  | None => Stop
  | Some x => Error x
  end.

(** The request object the generator builds from its arguments. *)
Definition request_of (sid sfi qtm : pyval) : PropagateInVideoRequest :=
  {| type := "propagate_in_video";
     session_id := sid;
     start_frame_index := sfi;
     quick_test_mode := qtm |}.

(** The payload passes the two checks of the view function. *)
Definition passes_validation (data : pyval) : bool :=
  match data with
  | PDict d => negb (is_none (dict_get d "session_id" PNone))
  | _ => false
  end.

(** The arguments with which the view function starts the generator: the
    propagation command of the request, if it has one. *)
Definition command {E : Type} (r : result (Response E))
    : option (pyval * pyval * pyval) :=
  match r with
  | Ok {| response := Stream (Created _ sid sfi qtm) |} => Some (sid, sfi, qtm)
  | _ => None
  end.

Fixpoint header_lookup (hs : Headers) (key : string) : option string :=
  match hs with
  | [] => None
  | (k, v) :: hs' => if String.eqb k key then Some v else header_lookup hs' key
  end.

(** The [Frame-Current] header a client reads off one message of the
    stream. *)
Definition frame_current (msg : bytes) : option string :=
  match decode msg with
  | Some (hs, _) => header_lookup hs "Frame-Current"
  | None => None
  end.

(** ** A concrete engine, for examples *)

(** Modelled from the spec: [PropagateDataResponse] is declared in
    [inference/data_types.py]; the specification describes one frame result
    as a frame index with the masks of the objects, each run-length encoded. *)
Record FrameResult : Type := {
  frame_index : Z;
  masks : list (Z * string)
}.

(** An iterator over a fixed list of chunks that ends with [StopIteration]
    or with an exception. *)
Definition list_engine (chunk : Type) : Type := (list chunk * option exn)%type.

Definition list_next {chunk : Type} (e : list_engine chunk)
    : pulled chunk (list_engine chunk) :=
  match e with
  | (c :: l, fin) => Item c (l, fin)
  | ([], None) => Exhausted
  | ([], Some x) => Failed x
  end.

(** An engine that answers every request with the same iterator. *)
Definition sample_engine {chunk : Type} (items : list chunk) (fin : option exn)
    : PropagateInVideoRequest -> list_engine chunk :=
  fun _ => (items, fin).

Definition frames_of (indices : list Z) : list FrameResult :=
  map (fun i => {| frame_index := i; masks := [] |}) indices.

(** A stand-in for the serialisation of a chunk. *)
Definition sample_to_json (c : FrameResult) : string := "{}".

Definition sample_request : pyval :=
  PDict [("session_id", PStr "abc")].

(** What the codec asks of its input for a message to be read back: no
    line terminator inside the boundary, a key or a value, and no
    key-value separator inside a key. *)
Definition header_ok (kv : string * string) : Prop :=
  free_of CRLF (encode_utf8 (fst kv))
  /\ free_of COLON_SP (encode_utf8 (fst kv))
  /\ free_of CRLF (encode_utf8 (snd kv)).

Definition framable (boundary : string) (hs : Headers) : Prop :=
  free_of CRLF (encode_utf8 boundary) /\ Forall header_ok hs.

(** ** More of the generator and of the module *)

Section GeneratorState.

Context {chunk : Type} (to_json : chunk -> string).
Context {E : Type} (propagate : PropagateInVideoRequest -> E).
Context (enext : E -> pulled chunk E).

(** The generator object after the consumer has done [sched]. *)
Fixpoint run_state (g : gen_state E) (sched : list action) : gen_state E :=
  match sched with
  | [] => g
  | a :: sched' => run_state (snd (step to_json propagate enext g a)) sched'
  end.

End GeneratorState.

(** The number of calls of [next] in a schedule. *)
Definition count_next (sched : list action) : nat :=
  List.length (filter (fun a => match a with Next => true | Close => false end) sched).

(** 1 while the generator is suspended inside its [with] block. *)
Definition held {E : Type} (g : gen_state E) : nat :=
  match g with
  | Suspended _ _ => 1
  | _ => 0
  end.

Definition is_engine_call (ev : event) : bool :=
  match ev with EngineCall _ => true | _ => false end.
Definition is_error (ev : event) : bool :=
  match ev with Error _ => true | _ => false end.

(** Where a trace stands with respect to the [with] block. *)
Inductive phase : Type :=
| Before
| Inside
| After.

(** The events each phase admits: the block is entered once, the engine is
    called and pulled and messages are yielded only inside it, and once it
    is left the consumer sees only the end of the iteration or an error. *)
Definition phase_step (p : phase) (ev : event) : option phase :=
  match p, ev with
  | Before, Acquire => Some Inside
  | Before, Stop => Some After
  | Inside, (LogInfo _ | PrintFlush _ | EngineCall _ | Pull | Emit _) => Some Inside
  | Inside, Release => Some After
  | After, (Stop | Error _) => Some After
  | _, _ => None
  end.

Fixpoint phase_run (p : phase) (tr : list event) : option phase :=
  match tr with
  | [] => Some p
  | ev :: tr' =>
      match phase_step p ev with
      | Some p' => phase_run p' tr'
      | None => None
      end
  end.

Definition well_bracketed (tr : list event) : bool :=
  match phase_run Before tr with
  | Some _ => true
  | None => false
  end.

(** The phase a trace may be in when the generator is in a given state; a
    generator closed before it started is finished outside the block. *)
Definition phase_ok {E : Type} (g : gen_state E) (p : phase) : Prop :=
  match g, p with
  | Created _ _ _ _, Before => True
  | Suspended _ _, Inside => True
  | Finished, (Before | After) => True
  | _, _ => False
  end.

(** An iterator that never ends: it yields 0, 1, 2, ... *)
Definition counting_next (n : nat) : pulled nat nat := Item n (S n).

Definition nat_to_json (n : nat) : string := "{}".

(** *** The server and the request *)

(** The status line a client receives, read off the events of the WSGI call
    so far; [app.run] serves the application with the framework's
    development server. Under the WSGI protocol the status given to
    [start_response] is only announced: the server sends it with the first
    chunk of the body, or at the end of a body without chunks, and when the
    application raises before that it answers 500 Internal Server Error
    instead. [None]: nothing has been sent yet. *)
Fixpoint client_status (announced : option Z) (tr : list event) : option Z :=
  match tr with
  | [] => None
  | StartResponse st _ :: tr' => client_status (Some st) tr'
  | Emit _ :: _ => announced
  | Stop :: _ => announced
  | Error _ :: _ => Some 500%Z
  | _ :: tr' => client_status announced tr'
  end.

(** The exceptions with which the framework's [request.json] refuses a
    body. *)
Inductive http_exn : Type :=
| BadRequest
| UnsupportedMediaType.

(** The evaluation of [request.json], the first statement of the view
    function: a value, or one of the framework's exceptions. *)
Inductive json_property : Type :=
| JsonValue (data : pyval)
| JsonRaises (h : http_exn).

(** How a call of the view function ends: with a response, with an
    exception of its own code, or with the exception of [request.json]. *)
Inductive view_outcome (E : Type) : Type :=
| Answered (r : Response E)
| Raised (e : exn)
| Aborted (h : http_exn).
Arguments Answered {E} r.
Arguments Raised {E} e.
Arguments Aborted {E} h.

(** The view function from its first statement, [data = request.json]. *)
Definition propagate_in_video_request {E : Type} (j : json_property) : view_outcome E :=
  match j with
  | JsonRaises h => Aborted h
  | JsonValue data =>
      match propagate_in_video data with
      | Ok r => Answered r
      | Raise e => Raised e
      end
  end.

(** * Properties *)

(** ** The codec *)

Lemma byte_eqb_refl (a : byte) : byte_eqb a a = true.
Proof. unfold byte_eqb. now apply Byte.byte_dec_lb. Qed.

Lemma byte_eqb_neq (a b : byte) : a <> b -> byte_eqb a b = false.
Proof.
  intros Hab. unfold byte_eqb.
  destruct (Byte.eqb a b) eqn:Heq; [|reflexivity].
  apply Byte.byte_dec_bl in Heq. contradiction.
Qed.

Lemma is_prefix_app (p s : bytes) : is_prefix p (p ++ s) = true.
Proof.
  induction p as [|a p IH]; simpl; [reflexivity|].
  now rewrite byte_eqb_refl, IH.
Qed.

Lemma is_prefix_refl (p : bytes) : is_prefix p p = true.
Proof. rewrite <- (app_nil_r p) at 2. apply is_prefix_app. Qed.

Section TwoByteSeparator.

(** Both separators of the format are two distinct bytes, so an
    occurrence cannot overlap with itself. *)
Variables x y : byte.
Hypothesis Hxy : x <> y.

Lemma is_prefix2_cons (c : byte) (s : bytes) :
  is_prefix [x; y] (c :: s) =
  byte_eqb x c && match s with [] => false | d :: _ => byte_eqb y d end.
Proof. simpl. destruct s; simpl; now rewrite ?andb_true_r. Qed.

Lemma split_on_cons_none (c : byte) (s : bytes) :
  split_on [x; y] (c :: s) = None ->
  is_prefix [x; y] (c :: s) = false /\ split_on [x; y] s = None.
Proof.
  intros H. cbn [split_on] in H.
  destruct (is_prefix [x; y] (c :: s)); [discriminate|].
  split; [reflexivity|].
  destruct (split_on [x; y] s) as [[a b]|]; [discriminate|reflexivity].
Qed.

Lemma split_on_cons_skip (c : byte) (s : bytes) :
  is_prefix [x; y] (c :: s) = false ->
  split_on [x; y] (c :: s) =
  match split_on [x; y] s with
  | Some (a, b) => Some (c :: a, b)
  | None => None
  end.
Proof. intros H. cbn [split_on]. now rewrite H. Qed.

(** The first occurrence of the separator in [a ++ sep ++ rest] is the one
    written after [a], when [a] has none. *)
Lemma split_on_first (a rest : bytes) :
  free_of [x; y] a ->
  split_on [x; y] (a ++ x :: y :: rest) = Some (a, rest).
Proof.
  unfold free_of. induction a as [|c a IH]; intros Hfree.
  - cbn [app split_on]. change (x :: y :: rest) with ([x; y] ++ rest).
    now rewrite is_prefix_app.
  - apply split_on_cons_none in Hfree as [Hpre Hfree].
    change ((c :: a) ++ x :: y :: rest) with (c :: (a ++ x :: y :: rest)).
    rewrite split_on_cons_skip.
    + now rewrite (IH Hfree).
    + rewrite is_prefix2_cons in *.
      destruct a as [|d a]; [|exact Hpre].
      cbn [app]. rewrite (byte_eqb_neq y x) by congruence.
      apply andb_false_r.
Qed.

(** Gluing two pieces that are free of the separator, when the second
    does not start with its second byte. *)
Lemma free_of_app (a b : bytes) (z : byte) :
  z <> y ->
  free_of [x; y] a -> free_of [x; y] (z :: b) -> free_of [x; y] (a ++ z :: b).
Proof.
  unfold free_of. intros Hz. induction a as [|c a IH]; intros Ha Hb.
  - exact Hb.
  - apply split_on_cons_none in Ha as [Hpre Ha].
    change ((c :: a) ++ z :: b) with (c :: (a ++ z :: b)).
    rewrite split_on_cons_skip.
    + now rewrite (IH Ha Hb).
    + rewrite is_prefix2_cons in *.
      destruct a as [|d a]; [|exact Hpre].
      cbn [app]. rewrite (byte_eqb_neq y z) by congruence.
      apply andb_false_r.
Qed.

Lemma free_of_cons (c : byte) (s : bytes) :
  c <> x -> free_of [x; y] s -> free_of [x; y] (c :: s).
Proof.
  unfold free_of. intros Hc Hs.
  rewrite split_on_cons_skip.
  - now rewrite Hs.
  - rewrite is_prefix2_cons, (byte_eqb_neq x c) by congruence. reflexivity.
Qed.

End TwoByteSeparator.

Lemma CRLF_distinct : x0d <> x0a.
Proof. discriminate. Qed.

Lemma COLON_SP_distinct : x3a <> x20.
Proof. discriminate. Qed.

Lemma strip_suffix_app (suf s : bytes) : strip_suffix suf (s ++ suf) = Some s.
Proof.
  unfold strip_suffix.
  rewrite length_app, Nat.add_sub.
  replace (List.length suf <=? List.length s + List.length suf)%nat with true
    by (symmetry; apply Nat.leb_le; lia).
  rewrite skipn_app, Nat.sub_diag, skipn_all, firstn_app, Nat.sub_diag, firstn_all.
  cbn [skipn firstn app]. rewrite is_prefix_refl, app_nil_r. reflexivity.
Qed.

(** A header line is cut back into its key and its value. *)
Lemma header_line_split (kv : string * string) (rest : bytes) :
  header_ok kv ->
  exists c line,
    split_on CRLF (MultipartResponseBuilder.header_line kv ++ rest)
      = Some (c :: line, rest)
    /\ split_on COLON_SP (c :: line)
      = Some (encode_utf8 (fst kv), encode_utf8 (snd kv)).
Proof.
  intros (Hk & Hsep & Hv). unfold MultipartResponseBuilder.header_line.
  set (k := encode_utf8 (fst kv)) in *. set (v := encode_utf8 (snd kv)) in *.
  assert (Hline : free_of CRLF (k ++ COLON_SP ++ v)).
  { apply free_of_app; [discriminate|exact Hk|].
    apply free_of_cons; [discriminate|].
    apply free_of_cons; [discriminate|exact Hv]. }
  assert (Hcut : split_on CRLF ((k ++ COLON_SP ++ v) ++ CRLF ++ rest)
                 = Some (k ++ COLON_SP ++ v, rest))
    by apply (split_on_first _ _ CRLF_distinct _ _ Hline).
  assert (Hkv : split_on COLON_SP (k ++ COLON_SP ++ v) = Some (k, v))
    by apply (split_on_first _ _ COLON_SP_distinct _ _ Hsep).
  replace ((k ++ COLON_SP ++ v ++ CRLF) ++ rest)
    with ((k ++ COLON_SP ++ v) ++ CRLF ++ rest)
    by now rewrite <- !app_assoc.
  destruct (k ++ COLON_SP ++ v) as [|c line] eqn:Hshape.
  - destruct k; discriminate.
  - exists c, line. split; assumption.
Qed.

Lemma decode_headers_encode (hs : Headers) (rest : bytes) (fuel : nat) :
  Forall header_ok hs ->
  (List.length hs < fuel)%nat ->
  decode_headers fuel
    (List.concat (map MultipartResponseBuilder.header_line hs) ++ CRLF ++ rest)
  = Some (hs, rest).
Proof.
  revert fuel. induction hs as [|kv hs IH]; intros fuel Hok Hfuel.
  - destruct fuel as [|fuel]; [cbn in Hfuel; lia|]. reflexivity.
  - destruct fuel as [|fuel]; [cbn in Hfuel; lia|].
    inversion Hok as [|? ? Hkv Hrest]; subst.
    cbn [map List.concat]. rewrite <- app_assoc.
    destruct (header_line_split kv
                (List.concat (map MultipartResponseBuilder.header_line hs)
                   ++ CRLF ++ rest) Hkv) as (c & line & Hcut & Hsplit).
    cbn [decode_headers]. rewrite Hcut, Hsplit.
    rewrite IH by (assumption || (cbn in Hfuel; lia)).
    unfold encode_utf8. rewrite !string_of_list_byte_of_string.
    now destruct kv.
Qed.

Lemma header_lines_length (hs : Headers) :
  (List.length hs <=
   List.length (List.concat (map MultipartResponseBuilder.header_line hs)))%nat.
Proof.
  induction hs as [|kv hs IH]; cbn [map List.concat List.length]; [lia|].
  unfold MultipartResponseBuilder.header_line at 1.
  rewrite !length_app. cbn [List.length COLON_SP CRLF]. lia.
Qed.

(** Reading back an encoded message, for input the codec can frame. *)
Lemma decode_encode (boundary : string) (hs : Headers) (payload : bytes) :
  framable boundary hs ->
  decode (encode boundary hs payload) = Some (hs, payload).
Proof.
  intros [Hb Hhs].
  unfold decode, encode, MultipartResponseBuilder.get_message,
    MultipartResponseBuilder.build, MultipartResponseBuilder.message.
  set (lines := List.concat (map MultipartResponseBuilder.header_line hs)).
  assert (Hfirst : free_of CRLF (DASHES ++ encode_utf8 boundary)).
  { apply free_of_cons; [discriminate|].
    apply free_of_cons; [discriminate|exact Hb]. }
  replace (DASHES ++ encode_utf8 boundary ++ CRLF ++ lines ++ CRLF ++ payload ++ CRLF)
    with ((DASHES ++ encode_utf8 boundary)
            ++ CRLF ++ lines ++ CRLF ++ payload ++ CRLF)
    by now rewrite <- app_assoc.
  assert (Hcut : split_on CRLF
                   ((DASHES ++ encode_utf8 boundary)
                      ++ CRLF ++ lines ++ CRLF ++ payload ++ CRLF)
                 = Some (DASHES ++ encode_utf8 boundary,
                         lines ++ CRLF ++ payload ++ CRLF))
    by apply (split_on_first _ _ CRLF_distinct _ _ Hfirst).
  rewrite Hcut, is_prefix_app.
  subst lines. rewrite decode_headers_encode.
  - now rewrite strip_suffix_app.
  - exact Hhs.
  - rewrite !length_app. pose proof (header_lines_length hs). lia.
Qed.

(** Two different header mappings with the same encoding: the separator
    may sit in the key of one and in the value of the other. *)
Lemma encode_not_injective :
  encode "frame" [("a: b", "c")] [] = encode "frame" [("a", "b: c")] [].
Proof. reflexivity. Qed.

(** Hence no reader at all inverts [encode] on every headers mapping. *)
Lemma no_decoder_inverts_encode (dec : bytes -> option (Headers * bytes)) :
  ~ (forall boundary hs payload,
        dec (encode boundary hs payload) = Some (hs, payload)).
Proof.
  intros Hinv.
  pose proof (Hinv "frame" [("a: b", "c")] []) as H1.
  pose proof (Hinv "frame" [("a", "b: c")] []) as H2.
  rewrite encode_not_injective in H1. rewrite H1 in H2. discriminate.
Qed.

(** C8, as stated: the round trip fails for a headers mapping whose key
    contains the key-value separator; the message is read back with the
    key cut at the separator. *)
Lemma roundtrip_fails_on_separator_in_key :
  decode (encode "frame" [("a: b", "c")] []) = Some ([("a", "b: c")], [])
  /\ decode (encode "frame" [("a: b", "c")] []) <> Some ([("a: b", "c")], []).
Proof. split; [reflexivity|discriminate]. Qed.

(** C8, amended: for every boundary, headers mapping and body such that the
    boundary, the keys and the values contain no line terminator and the
    keys contain no key-value separator, decoding the encoded message gives
    back exactly the headers, in order, and the body; the body is
    arbitrary. *)
Theorem decode_encode_roundtrip (boundary : string) (hs : Headers) (payload : bytes) :
  free_of CRLF (encode_utf8 boundary) ->
  Forall header_ok hs ->
  decode (encode boundary hs payload) = Some (hs, payload).
Proof. intros Hb Hhs. apply decode_encode. split; assumption. Qed.

Lemma decode_encode_roundtrip_witness :
  decode (encode "frame"
            [("Content-Type", "application/json; charset=utf-8"); ("Frame-Current", "-1")]
            [x7b; x0d; x0a; x2d; x2d; x7d])
  = Some ([("Content-Type", "application/json; charset=utf-8"); ("Frame-Current", "-1")],
          [x7b; x0d; x0a; x2d; x2d; x7d]).
Proof.
  apply decode_encode_roundtrip.
  - reflexivity.
  - repeat constructor.
Defined.

(** ** The generator *)

Section GeneratorFacts.

Context {chunk : Type} (to_json : chunk -> string).
Context {E : Type} (propagate : PropagateInVideoRequest -> E).
Context (enext : E -> pulled chunk E).

Local Notation RUN := (run to_json propagate enext).
Local Notation WIRE := (wire to_json).
Local Notation PRODUCES := (produces enext).

Lemma count_app (p : event -> bool) (t1 t2 : list event) :
  count p (t1 ++ t2) = (count p t1 + count p t2)%nat.
Proof. unfold count. now rewrite filter_app, length_app. Qed.

(** The first [next] enters the [with] block, builds the request, logs
    it, calls the engine, and then behaves as any later [next]. *)
Lemma run_created_next (b : string) (sid sfi qtm : pyval) (sched : list action) :
  RUN (Created b sid sfi qtm) (Next :: sched)
  = Acquire :: LogInfo (request_of sid sfi qtm) :: PrintFlush (request_of sid sfi qtm)
      :: EngineCall (request_of sid sfi qtm)
      :: RUN (Suspended b (propagate (request_of sid sfi qtm))) (Next :: sched).
Proof.
  cbn [run step gen_next]. fold (request_of sid sfi qtm).
  destruct (resume_loop to_json enext b (propagate (request_of sid sfi qtm)))
    as [evs g']. reflexivity.
Qed.

Lemma run_suspended_item b e c e' sched :
  enext e = Item c e' ->
  RUN (Suspended b e) (Next :: sched)
  = Pull :: Emit (WIRE b c) :: RUN (Suspended b e') sched.
Proof. intros H. cbn [run step gen_next]. unfold resume_loop. now rewrite H. Qed.

Lemma run_suspended_exhausted b e sched :
  enext e = Exhausted ->
  RUN (Suspended b e) (Next :: sched) = Pull :: Release :: Stop :: RUN Finished sched.
Proof. intros H. cbn [run step gen_next]. unfold resume_loop. now rewrite H. Qed.

Lemma run_suspended_failed b e x sched :
  enext e = Failed x ->
  RUN (Suspended b e) (Next :: sched)
  = Pull :: Release :: Error x :: RUN Finished sched.
Proof. intros H. cbn [run step gen_next]. unfold resume_loop. now rewrite H. Qed.

Lemma run_suspended_close b e sched :
  RUN (Suspended b e) (Close :: sched) = Release :: RUN Finished sched.
Proof. reflexivity. Qed.

(** A finished generator only answers [StopIteration]. *)
Lemma run_finished (sched : list action) :
  forallb after_scope (RUN Finished sched) = true
  /\ emitted (RUN Finished sched) = [].
Proof.
  induction sched as [|[|] sched [IH1 IH2]]; cbn; auto.
Qed.

Lemma after_scope_counts (tr : list event) :
  forallb after_scope tr = true ->
  count is_acquire tr = 0%nat /\ count is_release tr = 0%nat
  /\ count is_pull tr = 0%nat /\ count is_emit tr = 0%nat
  /\ count is_start_response tr = 0%nat.
Proof.
  induction tr as [|ev tr IH]; [now cbn|].
  cbn [forallb]. intros [Hev Htr]%andb_true_iff.
  destruct ev; try discriminate; cbn; exact (IH Htr).
Qed.

Lemma in_scope_counts (tr : list event) :
  forallb in_scope tr = true ->
  count is_acquire tr = 0%nat /\ count is_release tr = 0%nat
  /\ count is_start_response tr = 0%nat.
Proof.
  induction tr as [|ev tr IH]; [now cbn|].
  cbn [forallb]. intros [Hev Htr]%andb_true_iff.
  destruct ev; try discriminate; cbn; exact (IH Htr).
Qed.

(** Once the generator is suspended in the loop, whatever the consumer
    does and then a [close]: pulls and messages, one release, and after
    it nothing but the end of the iteration. *)
Lemma run_suspended_bracket (sched : list action) :
  forall b e, exists mid tail,
    RUN (Suspended b e) (sched ++ [Close]) = mid ++ Release :: tail
    /\ forallb in_scope mid = true
    /\ forallb after_scope tail = true.
Proof.
  induction sched as [|a sched IH]; intros b e.
  - exists [], []. now cbn.
  - destruct a.
    + change ((Next :: sched) ++ [Close]) with (Next :: (sched ++ [Close])).
      destruct (enext e) as [c e'| |x] eqn:He.
      * rewrite (run_suspended_item _ _ _ _ _ He).
        destruct (IH b e') as (mid & tail & Heq & Hmid & Htail).
        exists (Pull :: Emit (WIRE b c) :: mid), tail.
        rewrite Heq. now cbn.
      * rewrite (run_suspended_exhausted _ _ _ He).
        exists [Pull], (Stop :: RUN Finished (sched ++ [Close])).
        cbn. repeat split. apply run_finished.
      * rewrite (run_suspended_failed _ _ _ _ He).
        exists [Pull], (Error x :: RUN Finished (sched ++ [Close])).
        cbn. repeat split. apply run_finished.
    + change ((Close :: sched) ++ [Close]) with (Close :: (sched ++ [Close])).
      rewrite run_suspended_close.
      exists [], (RUN Finished (sched ++ [Close])).
      cbn. repeat split. apply run_finished.
Qed.

(** The messages that come out are those of a prefix of what the engine
    yields, in the engine's order. *)
Lemma emitted_prefix (sched : list action) :
  forall b e items fin,
    PRODUCES e items fin ->
    exists j, (j <= List.length items)%nat
      /\ emitted (RUN (Suspended b e) sched) = map (WIRE b) (firstn j items).
Proof.
  induction sched as [|a sched IH]; intros b e items fin Hp.
  - exists 0%nat. split; [lia|reflexivity].
  - destruct a.
    + inversion Hp as [e0 He|e0 x He|e0 c e' l fin0 He Hl]; subst.
      * rewrite (run_suspended_exhausted _ _ _ He).
        exists 0%nat. split; [lia|]. cbn. apply run_finished.
      * rewrite (run_suspended_failed _ _ _ _ He).
        exists 0%nat. split; [lia|]. cbn. apply run_finished.
      * rewrite (run_suspended_item _ _ _ _ _ He).
        destruct (IH b e' l fin Hl) as (j & Hj & Heq).
        exists (S j). split; [cbn; lia|]. cbn. now rewrite <- Heq.
    + rewrite run_suspended_close. exists 0%nat. split; [lia|].
      cbn. apply run_finished.
Qed.

(** [n] calls of [next], while the engine has that many results: [n]
    pulls and the first [n] messages. *)
Lemma run_repeat_next (n : nat) :
  forall b e items fin,
    PRODUCES e items fin ->
    (n <= List.length items)%nat ->
    emitted (RUN (Suspended b e) (repeat Next n)) = map (WIRE b) (firstn n items)
    /\ count is_pull (RUN (Suspended b e) (repeat Next n)) = n.
Proof.
  induction n as [|n IH]; intros b e items fin Hp Hn.
  - now cbn.
  - inversion Hp as [e0 He|e0 x He|e0 c e' l fin0 He Hl]; subst;
      try (cbn in Hn; lia).
    cbn [repeat]. rewrite (run_suspended_item _ _ _ _ _ He).
    destruct (IH b e' l fin Hl) as [Hem Hpull]; [cbn in Hn; lia|].
    split.
    + cbn. now rewrite <- Hem.
    + unfold count in *. cbn. now rewrite Hpull.
Qed.

(** One more call of [next] than the engine has results: every message,
    then the release and the end the engine chose; the consumer may go
    on as it likes. *)
Lemma run_to_end b (more : list action) :
  forall items e fin,
    PRODUCES e items fin ->
    RUN (Suspended b e) (repeat Next (S (List.length items)) ++ more)
    = flat_map (fun c => [Pull; Emit (WIRE b c)]) items
        ++ Pull :: Release :: ending fin :: RUN Finished more.
Proof.
  induction items as [|c items IH]; intros e fin Hp.
  - inversion Hp as [e0 He|e0 x He|]; subst; cbn [List.length repeat app].
    + now rewrite (run_suspended_exhausted _ _ _ He).
    + now rewrite (run_suspended_failed _ _ _ _ He).
  - inversion Hp as [| |e0 c0 e' l fin0 He Hl]; subst.
    change (repeat Next (S (List.length (c :: items))) ++ more)
      with (Next :: (repeat Next (S (List.length items)) ++ more)).
    rewrite (run_suspended_item _ _ _ _ _ He), (IH e' fin Hl). reflexivity.
Qed.

(** The generator never touches the status of the response. *)
Lemma run_no_start_response (sched : list action) :
  forall g, count is_start_response (RUN g sched) = 0%nat.
Proof.
  induction sched as [|a sched IH]; intros g; [reflexivity|].
  cbn [run]. destruct (step to_json propagate enext g a) as [evs g'] eqn:Hstep.
  rewrite count_app, IH, Nat.add_0_r.
  destruct a, g; cbn in Hstep; unfold resume_loop in Hstep;
    repeat match type of Hstep with
           | context [enext ?e] => destruct (enext e)
           end;
    inversion Hstep; reflexivity.
Qed.

Lemma emitted_flat_map_wire b (items : list chunk) (tl : list event) :
  emitted (flat_map (fun c => [Pull; Emit (WIRE b c)]) items ++ tl)
  = map (WIRE b) items ++ emitted tl.
Proof.
  induction items as [|c items IH]; [reflexivity|].
  cbn. now rewrite <- IH.
Qed.

(** The headers of every message are free of separators where the codec
    needs them to be. *)
Lemma frame_message_framable (c : chunk) :
  framable "frame" (headers (frame_message to_json c)).
Proof. split; [reflexivity|repeat constructor]. Qed.

Lemma decode_wire (c : chunk) :
  decode (WIRE "frame" c)
  = Some (headers (frame_message to_json c), encode_utf8 (to_json c)).
Proof.
  unfold wire. change (body (frame_message to_json c)) with (encode_utf8 (to_json c)).
  apply (decode_encode "frame"). apply frame_message_framable.
Qed.

Lemma frame_current_wire (c : chunk) :
  frame_current (WIRE "frame" c) = Some "-1".
Proof. unfold frame_current. now rewrite decode_wire. Qed.

End GeneratorFacts.

(** ** The view function *)

Section HandlerFacts.

Context {E : Type}.

Lemma propagate_in_video_none :
  propagate_in_video (E := E) PNone = Ok (make_response "Invalid JSON" 400).
Proof. reflexivity. Qed.

Lemma propagate_in_video_dict (d : list (string * pyval)) :
  propagate_in_video (E := E) (PDict d)
  = if is_none (dict_get d "session_id" PNone)
    then Ok (make_response "Missing session_id" 400)
    else Ok (Response_stream
               (gen_track_with_mask_stream "frame"
                  (dict_get d "session_id" PNone)
                  (dict_get d "start_frame_index" (PInt 0))
                  (dict_get d "quick_test_mode" (PBool false)))
               STREAM_CONTENT_TYPE).
Proof. reflexivity. Qed.

Lemma is_none_true (v : pyval) : is_none v = true <-> v = PNone.
Proof. destruct v; cbn; split; (reflexivity || discriminate). Qed.

Lemma passes_validation_dict (data : pyval) :
  passes_validation data = true ->
  exists d, data = PDict d /\ is_none (dict_get d "session_id" PNone) = false.
Proof.
  destruct data; try discriminate. cbn. intros H%negb_true_iff. eauto.
Qed.

(** A payload that passes the checks gets the streaming response, with
    the generator created from the three fields and not yet started. *)
Lemma propagate_in_video_valid (data : pyval) :
  passes_validation data = true ->
  exists d, data = PDict d
    /\ propagate_in_video (E := E) data
       = Ok (Response_stream
               (Created "frame"
                  (dict_get d "session_id" PNone)
                  (dict_get d "start_frame_index" (PInt 0))
                  (dict_get d "quick_test_mode" (PBool false)))
               STREAM_CONTENT_TYPE).
Proof.
  intros (d & -> & Hsid)%passes_validation_dict.
  exists d. split; [reflexivity|].
  now rewrite propagate_in_video_dict, Hsid.
Qed.

(** The streaming response is given to exactly the payloads that pass. *)
Lemma stream_iff_valid (data : pyval) :
  (exists r g, propagate_in_video (E := E) data = Ok r /\ response r = Stream g)
  <-> passes_validation data = true.
Proof.
  split.
  - intros (r & g & Hr & Hg).
    destruct data; try discriminate.
    + inversion Hr; subst. discriminate.
    + rewrite propagate_in_video_dict in Hr. cbn.
      destruct (is_none (dict_get d "session_id" PNone)); [|reflexivity].
      inversion Hr; subst. discriminate.
  - intros (d & -> & Heq)%propagate_in_video_valid.
    eexists _, _. split; [exact Heq|reflexivity].
Qed.

Lemma dict_get_found d key default v :
  dict_lookup d key = Some v -> dict_get d key default = v.
Proof. unfold dict_get. now intros ->. Qed.

Lemma dict_get_missing d key default :
  dict_lookup d key = None -> dict_get d key default = default.
Proof. unfold dict_get. now intros ->. Qed.

End HandlerFacts.

(** ** The streaming protocol *)

Section Protocol.

Context {chunk : Type} (to_json : chunk -> string).
Context {E : Type} (propagate : PropagateInVideoRequest -> E).
Context (enext : E -> pulled chunk E).

Local Notation RUN := (run to_json propagate enext).
Local Notation WIRE := (wire to_json).
Local Notation PRODUCES := (produces enext).

(** A generator closed before its first [next] never enters the [with]
    block: nothing is acquired and nothing is released. *)
Lemma close_before_start (b : string) (sid sfi qtm : pyval) (sched : list action) :
  RUN (gen_track_with_mask_stream b sid sfi qtm) (Close :: sched) = RUN Finished sched
  /\ count is_acquire (RUN (gen_track_with_mask_stream b sid sfi qtm) (Close :: sched)) = 0%nat
  /\ count is_release (RUN (gen_track_with_mask_stream b sid sfi qtm) (Close :: sched)) = 0%nat.
Proof.
  assert (Heq : RUN (gen_track_with_mask_stream b sid sfi qtm) (Close :: sched)
                = RUN Finished sched) by reflexivity.
  rewrite Heq. split; [reflexivity|].
  destruct (run_finished to_json propagate enext sched) as [Hafter _].
  apply after_scope_counts in Hafter. tauto.
Qed.

(** C1. Whatever the engine does and whatever the consumer does after its
    first [next] (more calls of [next], a [close] at any point, calls after
    the end), the trace of a propagation call that is closed in the end
    starts with the one acquisition of the execution context, before the
    engine is called or pulled; between the acquisition and the one release
    there are only pulls and emitted messages; after the release there is
    only the end of the iteration or the engine's error. When the engine
    raises after [k] results, the emitted messages are those of a prefix
    of these [k] results, and a consumer that pulls past them sees the [k]
    messages, the release, the error, and nothing more. *)
Theorem autocast_context_brackets_stream
    (b : string) (sid sfi qtm : pyval) (sched : list action) :
  let req := request_of sid sfi qtm in
  let tr := RUN (gen_track_with_mask_stream b sid sfi qtm) (Next :: sched ++ [Close]) in
  (exists mid tail,
      tr = Acquire :: LogInfo req :: PrintFlush req :: EngineCall req
             :: mid ++ Release :: tail
      /\ forallb in_scope mid = true
      /\ forallb after_scope tail = true)
  /\ count is_acquire tr = 1%nat
  /\ count is_release tr = 1%nat
  /\ (forall items x,
        PRODUCES (propagate req) items (Some x) ->
        (exists j, (j <= List.length items)%nat
           /\ emitted tr = map (WIRE b) (firstn j items))
        /\ forall more,
             RUN (gen_track_with_mask_stream b sid sfi qtm)
               (repeat Next (S (List.length items)) ++ more)
             = Acquire :: LogInfo req :: PrintFlush req :: EngineCall req
                 :: flat_map (fun c => [Pull; Emit (WIRE b c)]) items
                 ++ Pull :: Release :: Error x :: RUN Finished more).
Proof.
  intros req tr. unfold gen_track_with_mask_stream in *. subst req.
  assert (Htr : tr = Acquire :: LogInfo (request_of sid sfi qtm)
                       :: PrintFlush (request_of sid sfi qtm)
                       :: EngineCall (request_of sid sfi qtm)
                       :: RUN (Suspended b (propagate (request_of sid sfi qtm)))
                            ((Next :: sched) ++ [Close]))
    by apply run_created_next.
  destruct (run_suspended_bracket to_json propagate enext (Next :: sched)
              b (propagate (request_of sid sfi qtm)))
    as (mid & tail & Heq & Hmid & Htail).
  rewrite Heq in Htr.
  pose proof (in_scope_counts mid Hmid) as (Hma & Hmr & _).
  pose proof (after_scope_counts tail Htail) as (Hta & Htr' & _).
  split; [|split; [|split]].
  - exists mid, tail. auto.
  - rewrite Htr. unfold count in *. cbn [filter is_acquire List.length].
    rewrite filter_app, length_app, Hma.
    cbn [filter is_acquire List.length]. now rewrite Hta.
  - rewrite Htr. unfold count in *. cbn [filter is_release List.length].
    rewrite filter_app, length_app, Hmr.
    cbn [filter is_release List.length]. now rewrite Htr'.
  - intros items x Hp. split.
    + destruct (emitted_prefix to_json propagate enext ((Next :: sched) ++ [Close])
                  b (propagate (request_of sid sfi qtm)) items (Some x) Hp)
        as (j & Hj & Hem).
      exists j. split; [exact Hj|].
      unfold tr. rewrite run_created_next. exact Hem.
    + intros more.
      change (repeat Next (S (List.length items)) ++ more)
        with (Next :: (repeat Next (List.length items) ++ more)).
      rewrite run_created_next.
      change (Next :: (repeat Next (List.length items) ++ more))
        with (repeat Next (S (List.length items)) ++ more).
      now rewrite (run_to_end to_json propagate enext b more items
                     (propagate (request_of sid sfi qtm)) (Some x) Hp).
Qed.

(** C2, amended. Whatever the frame indices of the results the engine
    yields, every message of the stream carries the literal [-1] in its
    [Frame-Current] header: in the headers handed to the builder, and in
    what a client decodes from the messages of a fully consumed stream,
    one per result. *)
Theorem frame_current_is_always_minus_one
    (sid sfi qtm : pyval) (items : list chunk) :
  PRODUCES (propagate (request_of sid sfi qtm)) items None ->
  map frame_current
    (emitted (RUN (gen_track_with_mask_stream "frame" sid sfi qtm)
                (repeat Next (S (List.length items)))))
  = repeat (Some "-1") (List.length items)
  /\ forall c, header_lookup (headers (frame_message to_json c)) "Frame-Current"
               = Some "-1".
Proof.
  intros Hp. unfold gen_track_with_mask_stream. split; [|reflexivity].
  change (repeat Next (S (List.length items)))
    with (Next :: repeat Next (List.length items)).
  rewrite run_created_next.
  change (Next :: repeat Next (List.length items))
    with (repeat Next (S (List.length items))).
  rewrite <- (app_nil_r (repeat Next (S (List.length items)))).
  rewrite (run_to_end to_json propagate enext "frame" [] items _ None Hp).
  cbn [emitted flat_map app].
  change (flat_map (fun ev => match ev with Emit m => [m] | _ => [] end) ?t)
    with (emitted t).
  rewrite emitted_flat_map_wire. cbn [emitted flat_map run ending app].
  rewrite app_nil_r, map_map.
  clear Hp. induction items as [|c items IH]; [reflexivity|].
  cbn [map List.length repeat]. now rewrite frame_current_wire, IH.
Qed.

(** C6. When the engine yields [items] and then ends, in whatever way: [n]
    calls of [next] pull the engine [n] times and give the messages of the
    first [n] results, nothing being read ahead; a stream consumed to the
    end gives one message per result, in the engine's order; whatever the
    consumer does, what has come out is the messages of a prefix of the
    results; and the body of the message of a result, as handed to the
    builder and as decoded from the wire, is the UTF-8 encoding of the
    JSON serialisation of that result. *)
Theorem one_message_per_frame_result
    (b : string) (sid sfi qtm : pyval) (items : list chunk) (fin : option exn) :
  PRODUCES (propagate (request_of sid sfi qtm)) items fin ->
  let g := gen_track_with_mask_stream b sid sfi qtm in
  (forall n, (n <= List.length items)%nat ->
     emitted (RUN g (repeat Next n)) = map (WIRE b) (firstn n items)
     /\ count is_pull (RUN g (repeat Next n)) = n)
  /\ emitted (RUN g (repeat Next (S (List.length items)))) = map (WIRE b) items
  /\ (forall sched, exists j, (j <= List.length items)%nat
        /\ emitted (RUN g sched) = map (WIRE b) (firstn j items))
  /\ (forall c,
        body (frame_message to_json c) = encode_utf8 (to_json c)
        /\ WIRE b c = encode b (headers (frame_message to_json c))
                        (encode_utf8 (to_json c))
        /\ decode (WIRE "frame" c)
           = Some (headers (frame_message to_json c), encode_utf8 (to_json c))).
Proof.
  intros Hp g. unfold gen_track_with_mask_stream in g. split; [|split; [|split]].
  - intros [|n] Hn; [now cbn|].
    unfold g. change (repeat Next (S n)) with (Next :: repeat Next n).
    rewrite run_created_next.
    change (Next :: repeat Next n) with (repeat Next (S n)).
    destruct (run_repeat_next to_json propagate enext (S n) b _ items fin Hp Hn)
      as [Hem Hpull].
    split; [exact Hem|]. unfold count in *. cbn [filter is_pull]. exact Hpull.
  - unfold g. change (repeat Next (S (List.length items)))
      with (Next :: repeat Next (List.length items)).
    rewrite run_created_next.
    change (Next :: repeat Next (List.length items))
      with (repeat Next (S (List.length items))).
    rewrite <- (app_nil_r (repeat Next (S (List.length items)))).
    rewrite (run_to_end to_json propagate enext b [] items _ fin Hp).
    cbn [emitted flat_map app].
    change (flat_map (fun ev => match ev with Emit m => [m] | _ => [] end) ?t)
      with (emitted t).
    rewrite emitted_flat_map_wire.
    destruct fin; cbn; now rewrite app_nil_r.
  - intros [|[|] sched].
    + exists 0%nat. split; [lia|reflexivity].
    + unfold g. rewrite run_created_next.
      apply (emitted_prefix to_json propagate enext (Next :: sched) b _ items fin Hp).
    + exists 0%nat. split; [lia|].
      change (RUN g (Close :: sched)) with (RUN Finished sched).
      cbn [firstn map]. apply run_finished.
  - intros c. split; [reflexivity|]. split; [reflexivity|]. apply decode_wire.
Qed.

End Protocol.

(** ** The body of a text response *)

Lemma run_text_done (text : string) (sched : list action) :
  run_text text true sched = repeat Stop (count_next sched).
Proof.
  unfold count_next. induction sched as [|[|] sched IH]; cbn; congruence.
Qed.

(** Iterating a text body touches nothing of the engine, and gives the text
    at most once. *)
Lemma run_text_events (text : string) (sched : list action) :
  forall done,
    count is_acquire (run_text text done sched) = 0%nat
    /\ count is_engine_call (run_text text done sched) = 0%nat
    /\ count is_pull (run_text text done sched) = 0%nat
    /\ count is_release (run_text text done sched) = 0%nat
    /\ (emitted (run_text text done sched) = []
        \/ emitted (run_text text done sched) = [encode_utf8 text]).
Proof.
  unfold count, emitted.
  induction sched as [|[|] sched IH]; intros done.
  - cbn. tauto.
  - destruct (IH true) as (H1 & H2 & H3 & H4 & H5).
    assert (Hnone : flat_map (fun ev => match ev with Emit m => [m] | _ => [] end)
                      (run_text text true sched) = []).
    { rewrite run_text_done. clear. induction (count_next sched); cbn; auto. }
    destruct done; cbn [run_text filter flat_map app is_acquire is_engine_call
                          is_pull is_release];
      rewrite Hnone; tauto.
  - cbn [run_text]. apply IH.
Qed.

(** ** The endpoint as a whole *)

Section EndpointClaims.

Context {chunk : Type} (to_json : chunk -> string).
Context {E : Type} (propagate : PropagateInVideoRequest -> E).
Context (enext : E -> pulled chunk E).

Local Notation RUN := (run to_json propagate enext).
Local Notation CALL := (wsgi_call to_json propagate enext).

(** C3, amended. A payload that is [None] is answered with status 400 and
    the text [Invalid JSON]; an object whose [session_id] is absent or null
    is answered with status 400 and the text [Missing session_id]; an object
    with any other [session_id], string or not, is accepted and gets the
    streaming response. A 400 answer has its text as the body, with no
    content type set by the view function, and no stream: however the
    server iterates it, nothing of the engine is touched and the text comes
    out at most once; a server that asks for the body gets the text on the
    first [next] and the end of the iteration on every later one. *)
Theorem validation_failures_are_400 :
  propagate_in_video (E := E) PNone = Ok (make_response "Invalid JSON" 400)
  /\ (forall d, dict_get d "session_id" PNone = PNone ->
        propagate_in_video (E := E) (PDict d)
        = Ok (make_response "Missing session_id" 400))
  /\ (forall d, dict_get d "session_id" PNone <> PNone ->
        exists g, propagate_in_video (E := E) (PDict d)
                  = Ok (Response_stream g STREAM_CONTENT_TYPE))
  /\ (forall data r,
        propagate_in_video (E := E) data = Ok r -> status r = 400%Z ->
        exists text,
          response r = Text text
          /\ mimetype r = None
          /\ (forall sched,
                count is_acquire (CALL r sched) = 0%nat
                /\ count is_engine_call (CALL r sched) = 0%nat
                /\ count is_pull (CALL r sched) = 0%nat
                /\ (emitted (CALL r sched) = []
                    \/ emitted (CALL r sched) = [encode_utf8 text]))
          /\ (forall more,
                CALL r (Next :: more)
                = StartResponse 400 None :: Emit (encode_utf8 text)
                    :: repeat Stop (count_next more))).
Proof.
  split; [reflexivity|]. split; [|split].
  - intros d Hsid. now rewrite propagate_in_video_dict, Hsid.
  - intros d Hsid. rewrite propagate_in_video_dict.
    destruct (is_none (dict_get d "session_id" PNone)) eqn:Hn.
    + apply is_none_true in Hn. contradiction.
    + eauto.
  - intros data r Hr Hst.
    assert (Htext : exists text, r = make_response text 400).
    { destruct data; try discriminate.
      - inversion Hr; subst. now exists "Invalid JSON".
      - rewrite propagate_in_video_dict in Hr.
        destruct (is_none (dict_get d "session_id" PNone));
          inversion Hr; subst; [|discriminate].
        now exists "Missing session_id". }
    destruct Htext as (text & ->). exists text.
    split; [reflexivity|]. split; [reflexivity|]. split.
    + intros sched. unfold wsgi_call. cbn [status mimetype response make_response].
      destruct (run_text_events text sched false) as (H1 & H2 & H3 & _ & H5).
      unfold count in *. cbn [filter is_acquire is_engine_call is_pull emitted flat_map app].
      change (flat_map (fun ev => match ev with Emit m => [m] | _ => [] end) ?t)
        with (emitted t).
      tauto.
    + intros more. unfold wsgi_call. cbn [status mimetype response make_response run_text].
      now rewrite run_text_done.
Qed.

(** C4. For every payload that passes validation, the command has the
    default 0 as its [start_frame_index] when the payload has no such key,
    and the default [False] as its [quick_test_mode] when the payload has no
    such key, each field on its own; for the payload with the one key
    [session_id] of value ["abc"] the command is [("abc", 0, False)]. *)
Theorem validator_applies_defaults (d : list (string * pyval)) :
  passes_validation (PDict d) = true ->
  (exists sid sfi qtm,
      command (propagate_in_video (E := E) (PDict d)) = Some (sid, sfi, qtm)
      /\ sid = dict_get d "session_id" PNone
      /\ (dict_lookup d "start_frame_index" = None -> sfi = PInt 0)
      /\ (dict_lookup d "quick_test_mode" = None -> qtm = PBool false))
  /\ command (propagate_in_video (E := E) (PDict [("session_id", PStr "abc")]))
     = Some (PStr "abc", PInt 0, PBool false).
Proof.
  intros Hv. split; [|reflexivity].
  destruct (propagate_in_video_valid (E := E) _ Hv) as (d' & Hd & Heq).
  inversion Hd; subst d'. rewrite Heq.
  eexists _, _, _. split; [reflexivity|]. split; [reflexivity|].
  split; intros Hmiss; now apply dict_get_missing.
Qed.

(** C5. Every request that passes validation gets a streaming response of
    status 200 whose content type is exactly
    [multipart/x-savi-stream; boundary=frame]; the generator behind it is
    created with the boundary [frame], and each of its messages starts with
    the line [--frame]. *)
Theorem stream_content_type (data : pyval) :
  passes_validation data = true ->
  (exists sid sfi qtm,
      propagate_in_video (E := E) data
      = Ok {| status := 200;
              mimetype := Some "multipart/x-savi-stream; boundary=frame";
              response := Stream (Created "frame" sid sfi qtm) |})
  /\ forall c, exists rest,
       wire to_json "frame" c = encode_utf8 "--frame" ++ CRLF ++ rest.
Proof.
  intros Hv. split.
  - destruct (propagate_in_video_valid (E := E) _ Hv) as (d & _ & Heq).
    rewrite Heq. eexists _, _, _. reflexivity.
  - intros c. eexists. reflexivity.
Qed.

(** C7. For every payload that passes validation, the request object that
    the generator hands to the engine on its first [next] carries the
    payload's [session_id], [start_frame_index] and [quick_test_mode]
    (or the defaults 0 and [False] where the keys are missing): a value
    given in the payload arrives as it is, whatever it is. *)
Theorem parameters_forwarded_verbatim (d : list (string * pyval)) (sched : list action) :
  passes_validation (PDict d) = true ->
  let req := request_of (dict_get d "session_id" PNone)
               (dict_get d "start_frame_index" (PInt 0))
               (dict_get d "quick_test_mode" (PBool false)) in
  (exists g, propagate_in_video (PDict d) = Ok (Response_stream g STREAM_CONTENT_TYPE)
     /\ RUN g (Next :: sched)
        = Acquire :: LogInfo req :: PrintFlush req :: EngineCall req
            :: RUN (Suspended "frame" (propagate req)) (Next :: sched))
  /\ (forall v, dict_lookup d "start_frame_index" = Some v -> start_frame_index req = v)
  /\ (forall v, dict_lookup d "quick_test_mode" = Some v -> quick_test_mode req = v)
  /\ (dict_lookup d "start_frame_index" = None -> start_frame_index req = PInt 0)
  /\ (dict_lookup d "quick_test_mode" = None -> quick_test_mode req = PBool false).
Proof.
  intros Hv req.
  destruct (propagate_in_video_valid (E := E) _ Hv) as (d' & Hd & Heq).
  inversion Hd; subst d'.
  split; [|repeat split; intros; cbn;
            (now apply dict_get_found) || (now apply dict_get_missing)].
  eexists. split; [exact Heq|]. apply run_created_next.
Qed.

(** C9. An object whose [session_id] is an explicit null is answered with
    status 400 and the text [Missing session_id], and this is the very
    answer given to an object without the key. *)
Theorem null_session_id_is_missing (d d' : list (string * pyval)) :
  dict_lookup d "session_id" = Some PNone ->
  dict_lookup d' "session_id" = None ->
  propagate_in_video (E := E) (PDict d) = Ok (make_response "Missing session_id" 400)
  /\ propagate_in_video (E := E) (PDict d) = propagate_in_video (E := E) (PDict d').
Proof.
  intros Hnull Habsent.
  rewrite !propagate_in_video_dict.
  rewrite (dict_get_found d _ PNone PNone Hnull).
  rewrite (dict_get_missing d' _ PNone Habsent).
  split; reflexivity.
Qed.

(** C10, amended. For every request that passes validation the view
    function returns a response of status 200 around a generator that has
    not run: called by the server, the response announces 200 with the
    streaming content type before any event of the engine, nothing later
    announces a status, and nothing is sent to the client yet. The server
    sends the status with the first chunk of the body: when the first pull
    of the engine gives a result, the client receives 200 with the message
    of that result first, and whatever the engine does later, a failure
    included, can only cut the stream short; when the engine ends without a
    result the client receives 200; when the first pull fails, as for an
    unknown session, the error comes before any message and the client
    receives 500. *)
Theorem status_reaches_client_with_first_chunk (data : pyval) :
  passes_validation data = true ->
  exists sid sfi qtm r,
    propagate_in_video data = Ok r
    /\ status r = 200%Z
    /\ response r = Stream (Created "frame" sid sfi qtm)
    /\ (forall sched,
          CALL r sched
          = StartResponse 200 (Some STREAM_CONTENT_TYPE)
              :: RUN (Created "frame" sid sfi qtm) sched
          /\ count is_start_response (RUN (Created "frame" sid sfi qtm) sched) = 0%nat)
    /\ CALL r [] = [StartResponse 200 (Some STREAM_CONTENT_TYPE)]
    /\ client_status None (CALL r []) = None
    /\ (forall x more,
          enext (propagate (request_of sid sfi qtm)) = Failed x ->
          CALL r (Next :: more)
          = StartResponse 200 (Some STREAM_CONTENT_TYPE)
              :: Acquire :: LogInfo (request_of sid sfi qtm)
              :: PrintFlush (request_of sid sfi qtm)
              :: EngineCall (request_of sid sfi qtm)
              :: Pull :: Release :: Error x :: RUN Finished more
          /\ client_status None (CALL r (Next :: more)) = Some 500%Z)
    /\ (forall c e' more,
          enext (propagate (request_of sid sfi qtm)) = Item c e' ->
          client_status None (CALL r (Next :: more)) = Some 200%Z
          /\ emitted (CALL r (Next :: more))
             = wire to_json "frame" c :: emitted (RUN (Suspended "frame" e') more))
    /\ (forall more,
          enext (propagate (request_of sid sfi qtm)) = Exhausted ->
          client_status None (CALL r (Next :: more)) = Some 200%Z).
Proof.
  intros Hv.
  destruct (propagate_in_video_valid (E := E) _ Hv) as (d & _ & Heq).
  eexists _, _, _, _. split; [exact Heq|].
  split; [reflexivity|]. split; [reflexivity|].
  split; [|split; [|split; [|split; [|split]]]].
  - intros sched. split; [reflexivity|]. apply run_no_start_response.
  - reflexivity.
  - reflexivity.
  - intros x more Hx. unfold wsgi_call. cbn [status mimetype response Response_stream].
    rewrite run_created_next, (run_suspended_failed _ _ _ _ _ _ _ Hx).
    split; reflexivity.
  - intros c e' more Hc. unfold wsgi_call.
    cbn [status mimetype response Response_stream].
    rewrite run_created_next, (run_suspended_item _ _ _ _ _ _ _ _ Hc).
    split; reflexivity.
  - intros more Hx. unfold wsgi_call. cbn [status mimetype response Response_stream].
    rewrite run_created_next, (run_suspended_exhausted _ _ _ _ _ _ Hx).
    reflexivity.
Qed.

End EndpointClaims.

(** ** The properties on concrete runs *)

Lemma list_engine_produces {chunk : Type} (items : list chunk) (fin : option exn) :
  produces list_next (items, fin) items fin.
Proof.
  induction items as [|c items IH].
  - destruct fin; now constructor.
  - eapply produces_item; [reflexivity|exact IH].
Qed.

(** The engine raises after two results; the consumer keeps calling. *)
Lemma autocast_context_brackets_stream_witness :
  let engine := sample_engine (frames_of [0; 1]%Z) (Some (EngineError "InferenceFailure")) in
  let tr := run sample_to_json engine list_next
              (gen_track_with_mask_stream "frame" (PStr "s1") (PInt 0) (PBool false))
              (Next :: [Next; Next; Next] ++ [Close]) in
  produces list_next (engine (request_of (PStr "s1") (PInt 0) (PBool false)))
    (frames_of [0; 1]%Z) (Some (EngineError "InferenceFailure"))
  /\ count is_acquire tr = 1%nat
  /\ count is_release tr = 1%nat
  /\ exists j, (j <= 2)%nat
       /\ emitted tr = map (wire sample_to_json "frame") (firstn j (frames_of [0; 1]%Z)).
Proof.
  intros engine tr.
  pose proof (list_engine_produces (frames_of [0; 1]%Z)
                (Some (EngineError "InferenceFailure"))) as Hp.
  destruct (autocast_context_brackets_stream sample_to_json engine list_next
              "frame" (PStr "s1") (PInt 0) (PBool false) [Next; Next; Next])
    as (_ & Ha & Hr & Herr).
  split; [exact Hp|]. split; [exact Ha|]. split; [exact Hr|].
  exact (proj1 (Herr _ _ Hp)).
Defined.

(** C2, as stated: for results with the frame indices 0, 1, 2, 3 the
    [Frame-Current] headers of the four messages are not ["0"], ["1"],
    ["2"], ["3"]; each is ["-1"]. *)
Lemma frame_current_ignores_frame_index :
  let tr := run sample_to_json (sample_engine (frames_of [0; 1; 2; 3]%Z) None) list_next
              (gen_track_with_mask_stream "frame" (PStr "s1") (PInt 0) (PBool false))
              (repeat Next 5) in
  map frame_index (frames_of [0; 1; 2; 3]%Z) = [0; 1; 2; 3]%Z
  /\ map frame_current (emitted tr) = [Some "-1"; Some "-1"; Some "-1"; Some "-1"]
  /\ map frame_current (emitted tr) <> [Some "0"; Some "1"; Some "2"; Some "3"].
Proof.
  cbv zeta. split; [reflexivity|]. split; [vm_compute; reflexivity|].
  vm_compute. discriminate.
Qed.

Lemma frame_current_is_always_minus_one_witness :
  produces list_next
    (sample_engine (frames_of [0; 1; 2; 3]%Z) None
       (request_of (PStr "s1") (PInt 0) (PBool false)))
    (frames_of [0; 1; 2; 3]%Z) None
  /\ map frame_current
       (emitted (run sample_to_json (sample_engine (frames_of [0; 1; 2; 3]%Z) None)
                   list_next
                   (gen_track_with_mask_stream "frame" (PStr "s1") (PInt 0) (PBool false))
                   (repeat Next 5)))
     = [Some "-1"; Some "-1"; Some "-1"; Some "-1"].
Proof.
  pose proof (list_engine_produces (frames_of [0; 1; 2; 3]%Z) None) as Hp.
  split; [exact Hp|].
  exact (proj1 (frame_current_is_always_minus_one sample_to_json
                  (sample_engine (frames_of [0; 1; 2; 3]%Z) None) list_next
                  (PStr "s1") (PInt 0) (PBool false) (frames_of [0; 1; 2; 3]%Z) Hp)).
Defined.

(** C3, as stated: a [session_id] that is a number, not a string, is not
    rejected; the request is answered with the 200 stream. *)
Lemma non_string_session_id_is_accepted :
  propagate_in_video (E := list_engine FrameResult) (PDict [("session_id", PInt 5)])
  = Ok {| status := 200;
          mimetype := Some "multipart/x-savi-stream; boundary=frame";
          response := Stream (Created "frame" (PInt 5) (PInt 0) (PBool false)) |}.
Proof. reflexivity. Qed.

(** A payload that is JSON but not an object has no [get]: the view
    function raises before it reaches either of its 400 answers. *)
Lemma non_object_payload_raises :
  propagate_in_video (E := list_engine FrameResult) (PList [PInt 1; PInt 2])
  = Raise (AttributeError "get")
  /\ propagate_in_video (E := list_engine FrameResult) (PStr "abc")
     = Raise (AttributeError "get").
Proof. split; reflexivity. Qed.

Lemma validation_failures_are_400_witness :
  dict_get [("start_frame_index", PInt 2)] "session_id" PNone = PNone
  /\ propagate_in_video (E := list_engine FrameResult)
       (PDict [("start_frame_index", PInt 2)])
     = Ok (make_response "Missing session_id" 400)
  /\ exists text,
       text = "Missing session_id"
       /\ wsgi_call sample_to_json (sample_engine (frames_of [0]%Z) None) list_next
            (make_response "Missing session_id" 400) [Next; Next; Close]
          = [StartResponse 400 None; Emit (encode_utf8 text); Stop].
Proof.
  destruct (validation_failures_are_400 sample_to_json
              (sample_engine (frames_of [0]%Z) None) list_next)
    as (_ & Hmissing & _ & Hbody).
  split; [reflexivity|]. split; [apply Hmissing; reflexivity|].
  destruct (Hbody (PDict [("start_frame_index", PInt 2)])
              (make_response "Missing session_id" 400)
              (Hmissing [("start_frame_index", PInt 2)] eq_refl) eq_refl)
    as (text & Htext & _ & _ & Hcall).
  exists text. split; [|exact (Hcall [Next; Close])].
  cbn in Htext. now inversion Htext.
Defined.

Lemma validator_applies_defaults_witness :
  passes_validation (PDict [("session_id", PStr "s1"); ("quick_test_mode", PBool true)]) = true
  /\ exists sid sfi qtm,
       command (propagate_in_video (E := list_engine FrameResult)
                  (PDict [("session_id", PStr "s1"); ("quick_test_mode", PBool true)]))
       = Some (sid, sfi, qtm)
       /\ sfi = PInt 0.
Proof.
  split; [reflexivity|].
  destruct (validator_applies_defaults (E := list_engine FrameResult)
              [("session_id", PStr "s1"); ("quick_test_mode", PBool true)] eq_refl)
    as ((sid & sfi & qtm & Hcmd & _ & Hsfi & _) & _).
  exists sid, sfi, qtm. split; [exact Hcmd|]. apply Hsfi. reflexivity.
Defined.

Lemma stream_content_type_witness :
  passes_validation sample_request = true
  /\ exists sid sfi qtm,
       propagate_in_video (E := list_engine FrameResult) sample_request
       = Ok {| status := 200;
               mimetype := Some "multipart/x-savi-stream; boundary=frame";
               response := Stream (Created "frame" sid sfi qtm) |}.
Proof.
  split; [reflexivity|].
  exact (proj1 (stream_content_type sample_to_json (E := list_engine FrameResult)
                  sample_request eq_refl)).
Defined.

Lemma one_message_per_frame_result_witness :
  produces list_next
    (sample_engine (frames_of [5; 6; 7]%Z) None
       (request_of (PStr "s1") (PInt 5) (PBool false)))
    (frames_of [5; 6; 7]%Z) None
  /\ emitted (run sample_to_json (sample_engine (frames_of [5; 6; 7]%Z) None) list_next
                (gen_track_with_mask_stream "frame" (PStr "s1") (PInt 5) (PBool false))
                (repeat Next 4))
     = map (wire sample_to_json "frame") (frames_of [5; 6; 7]%Z).
Proof.
  pose proof (list_engine_produces (frames_of [5; 6; 7]%Z) None) as Hp.
  split; [exact Hp|].
  exact (proj1 (proj2 (one_message_per_frame_result sample_to_json
                         (sample_engine (frames_of [5; 6; 7]%Z) None) list_next
                         "frame" (PStr "s1") (PInt 5) (PBool false)
                         (frames_of [5; 6; 7]%Z) None Hp))).
Defined.

Lemma parameters_forwarded_verbatim_witness :
  let d := [("session_id", PStr "s1"); ("start_frame_index", PInt 5);
            ("quick_test_mode", PStr "yes")] in
  let req := request_of (dict_get d "session_id" PNone)
               (dict_get d "start_frame_index" (PInt 0))
               (dict_get d "quick_test_mode" (PBool false)) in
  passes_validation (PDict d) = true
  /\ start_frame_index req = PInt 5
  /\ quick_test_mode req = PStr "yes".
Proof.
  intros d req.
  destruct (parameters_forwarded_verbatim sample_to_json
              (sample_engine (frames_of [5]%Z) None) list_next d [] eq_refl)
    as (_ & Hsfi & Hqtm & _).
  split; [reflexivity|]. split; [apply Hsfi|apply Hqtm]; reflexivity.
Defined.

Lemma null_session_id_is_missing_witness :
  dict_lookup [("session_id", PNone); ("start_frame_index", PInt 3)] "session_id"
    = Some PNone
  /\ dict_lookup [("start_frame_index", PInt 3)] "session_id" = None
  /\ propagate_in_video (E := list_engine FrameResult)
       (PDict [("session_id", PNone); ("start_frame_index", PInt 3)])
     = propagate_in_video (E := list_engine FrameResult)
         (PDict [("start_frame_index", PInt 3)]).
Proof.
  split; [reflexivity|]. split; [reflexivity|].
  exact (proj2 (null_session_id_is_missing (E := list_engine FrameResult)
                  [("session_id", PNone); ("start_frame_index", PInt 3)]
                  [("start_frame_index", PInt 3)] eq_refl eq_refl)).
Defined.

(** C10, as stated: the session is unknown to the engine, which fails on
    the first pull. The view function has returned status 200, yet the
    failure comes before any message and the client receives 500, not a
    200 stream cut short. *)
Lemma first_pull_failure_is_answered_500 :
  let engine := sample_engine (@nil FrameResult) (Some (EngineError "SessionNotFound")) in
  let r := Response_stream
             (gen_track_with_mask_stream "frame" (PStr "abc") (PInt 0) (PBool false))
             STREAM_CONTENT_TYPE in
  passes_validation sample_request = true
  /\ propagate_in_video sample_request = Ok r
  /\ status r = 200%Z
  /\ emitted (wsgi_call sample_to_json engine list_next r [Next; Close]) = []
  /\ client_status None (wsgi_call sample_to_json engine list_next r [Next; Close])
     = Some 500%Z.
Proof. cbv zeta. repeat split; reflexivity. Qed.

(** The engine fails after its first result: the client has received 200
    with the first message, and the stream is cut short. *)
Lemma status_reaches_client_with_first_chunk_witness :
  let engine := sample_engine (frames_of [0]%Z) (Some (EngineError "InferenceFailure")) in
  passes_validation sample_request = true
  /\ exists r,
       propagate_in_video sample_request = Ok r
       /\ status r = 200%Z
       /\ In (Error (EngineError "InferenceFailure"))
            (wsgi_call sample_to_json engine list_next r [Next; Next; Close])
       /\ client_status None
            (wsgi_call sample_to_json engine list_next r [Next; Next; Close])
          = Some 200%Z.
Proof.
  intros engine. split; [reflexivity|].
  destruct (status_reaches_client_with_first_chunk sample_to_json engine list_next
              sample_request eq_refl)
    as (sid & sfi & qtm & r & Hr & Hst & Hresp & _ & _ & _ & _ & Hitem & _).
  exists r. split; [exact Hr|]. split; [exact Hst|].
  cbn in Hr. inversion Hr; subst r. cbn in Hresp. inversion Hresp; subst.
  split; [cbn; tauto|].
  exact (proj1 (Hitem {| frame_index := 0; masks := [] |}
                  ([], Some (EngineError "InferenceFailure")) [Next; Close] eq_refl)).
Defined.

(** ** Further properties of the generator *)

Section GeneratorInvariants.

Context {chunk : Type} (to_json : chunk -> string).
Context {E : Type} (propagate : PropagateInVideoRequest -> E).
Context (enext : E -> pulled chunk E).

Local Notation RUN := (run to_json propagate enext).
Local Notation STATE := (run_state to_json propagate enext).
Local Notation STEP := (step to_json propagate enext).
Local Notation WIRE := (wire to_json).
Local Notation PRODUCES := (produces enext).

(** Case analysis of one step of the generator. *)
Ltac step_cases g a :=
  destruct a, g; cbn [step gen_next gen_close fst snd];
  unfold resume_loop;
  try match goal with
      | |- context [enext ?e] => destruct (enext e)
      end;
  cbn [fst snd].

Lemma run_cons (g : gen_state E) (a : action) (sched : list action) :
  RUN g (a :: sched) = fst (STEP g a) ++ RUN (snd (STEP g a)) sched.
Proof. cbn [run]. now destruct (STEP g a). Qed.

Lemma run_state_app (s1 s2 : list action) :
  forall g, STATE g (s1 ++ s2) = STATE (STATE g s1) s2.
Proof. induction s1 as [|a s1 IH]; intros g; [reflexivity|]. cbn. apply IH. Qed.

Lemma run_app (s1 s2 : list action) :
  forall g, RUN g (s1 ++ s2) = RUN g s1 ++ RUN (STATE g s1) s2.
Proof.
  induction s1 as [|a s1 IH]; intros g; [reflexivity|].
  change ((a :: s1) ++ s2) with (a :: (s1 ++ s2)).
  rewrite !run_cons, IH, app_assoc. reflexivity.
Qed.

Lemma run_state_finished (sched : list action) : STATE Finished sched = Finished.
Proof. induction sched as [|[|] sched IH]; cbn; auto. Qed.

Lemma run_finished_stops (sched : list action) :
  RUN Finished sched = repeat Stop (count_next sched).
Proof.
  induction sched as [|[|] sched IH]; [reflexivity| |].
  - rewrite run_cons. cbn [step gen_next fst snd app].
    unfold count_next in *. cbn [filter List.length repeat]. now rewrite IH.
  - rewrite run_cons. cbn [step gen_close fst snd app]. exact IH.
Qed.

Lemma run_state_close (sched : list action) (g : gen_state E) :
  STATE g (sched ++ [Close]) = Finished.
Proof. rewrite run_state_app. cbn. now destruct (STATE g sched). Qed.

Lemma length_emitted (tr : list event) : List.length (emitted tr) = count is_emit tr.
Proof.
  unfold count, emitted. induction tr as [|ev tr IH]; [reflexivity|].
  destruct ev; cbn; congruence.
Qed.

Lemma count_cons (p : event -> bool) (ev : event) (tr : list event) :
  count p (ev :: tr) = ((if p ev then 1 else 0) + count p tr)%nat.
Proof. unfold count. cbn. now destruct (p ev). Qed.

Lemma phase_run_app (t1 t2 : list event) :
  forall p, phase_run p (t1 ++ t2)
            = match phase_run p t1 with
              | Some p' => phase_run p' t2
              | None => None
              end.
Proof.
  induction t1 as [|ev t1 IH]; intros p; [reflexivity|].
  cbn. destruct (phase_step p ev); [apply IH|reflexivity].
Qed.

Lemma step_phase (g : gen_state E) (a : action) (p : phase) :
  phase_ok g p ->
  exists p', phase_run p (fst (STEP g a)) = Some p' /\ phase_ok (snd (STEP g a)) p'.
Proof.
  intros Hok.
  step_cases g a; destruct p; cbn in Hok; try contradiction;
    cbn; eexists; (split; [reflexivity|exact I]).
Qed.

Lemma run_phase (sched : list action) :
  forall g p, phase_ok g p -> exists p', phase_run p (RUN g sched) = Some p'.
Proof.
  induction sched as [|a sched IH]; intros g p Hok; [now exists p|].
  rewrite run_cons, phase_run_app.
  destruct (step_phase g a p Hok) as (p' & -> & Hok').
  exact (IH _ _ Hok').
Qed.

(** X1. Whatever the consumer does with the generator, in any order and
    without any assumption on the engine, the trace respects the [with]
    block: the context is acquired at most once; the engine is called and
    pulled and messages are yielded only after the acquisition and before
    the release; after the release the consumer sees only the end of the
    iteration or an error. *)
Theorem trace_well_bracketed
    (b : string) (sid sfi qtm : pyval) (sched : list action) :
  well_bracketed (RUN (gen_track_with_mask_stream b sid sfi qtm) sched) = true.
Proof.
  unfold well_bracketed, gen_track_with_mask_stream.
  destruct (run_phase sched (Created b sid sfi qtm) Before I) as (p' & ->).
  reflexivity.
Qed.

Lemma step_counts (g : gen_state E) (a : action) :
  (count is_acquire (fst (STEP g a)) + held g
   = count is_release (fst (STEP g a)) + held (snd (STEP g a)))%nat
  /\ (count is_acquire (fst (STEP g a))
      <= match g with Created _ _ _ _ => 1 | _ => 0 end)%nat
  /\ count is_engine_call (fst (STEP g a)) = count is_acquire (fst (STEP g a))
  /\ match snd (STEP g a) with Created _ _ _ _ => False | _ => True end.
Proof. step_cases g a; cbn; repeat split; (exact I || lia). Qed.

Lemma run_counts (sched : list action) :
  forall g,
    (count is_acquire (RUN g sched) + held g
     = count is_release (RUN g sched) + held (STATE g sched))%nat
    /\ (count is_acquire (RUN g sched)
        <= match g with Created _ _ _ _ => 1 | _ => 0 end)%nat
    /\ count is_engine_call (RUN g sched) = count is_acquire (RUN g sched).
Proof.
  induction sched as [|a sched IH]; intros g.
  - cbn. repeat split; lia.
  - rewrite run_cons, !count_app. cbn [run_state].
    destruct (step_counts g a) as (H1 & H2 & H3 & H4).
    destruct (IH (snd (STEP g a))) as (I1 & I2 & I3).
    repeat split; [lia| |lia].
    destruct (snd (STEP g a)); [contradiction|lia|lia].
Qed.

(** X2. For every schedule of the consumer: the execution context is held
    exactly while the generator is suspended at its [yield] (acquisitions
    exceed releases by one then, and are equal to them in every other
    state, in particular once the generator has finished); it is acquired
    at most once; and the engine is called exactly as often as the context
    is acquired. *)
Theorem context_held_while_suspended
    (b : string) (sid sfi qtm : pyval) (sched : list action) :
  let g := gen_track_with_mask_stream b sid sfi qtm in
  count is_acquire (RUN g sched)
  = (count is_release (RUN g sched) + held (STATE g sched))%nat
  /\ (count is_acquire (RUN g sched) <= 1)%nat
  /\ count is_engine_call (RUN g sched) = count is_acquire (RUN g sched).
Proof.
  intros g. destruct (run_counts sched g) as (H1 & H2 & H3).
  cbn [held g gen_track_with_mask_stream] in *. repeat split; lia.
Qed.

(** X3. Closing is final, for a generator in any state: whatever the
    consumer does after a [close], each further [next] is answered with the
    end of the iteration and nothing else happens: no pull of the engine,
    no message, no second release. *)
Theorem close_is_final (g : gen_state E) (s1 s2 : list action) :
  RUN g (s1 ++ Close :: s2) = RUN g (s1 ++ [Close]) ++ repeat Stop (count_next s2)
  /\ STATE g (s1 ++ Close :: s2) = Finished.
Proof.
  change (s1 ++ Close :: s2) with (s1 ++ [Close] ++ s2).
  rewrite app_assoc. split.
  - now rewrite run_app, run_state_close, run_finished_stops.
  - now rewrite (run_state_app (s1 ++ [Close]) s2), run_state_close,
      run_state_finished.
Qed.

Lemma step_pulls (g : gen_state E) (a : action) :
  (count is_pull (fst (STEP g a)) <= match a with Next => 1 | Close => 0 end)%nat
  /\ (count is_emit (fst (STEP g a)) <= count is_pull (fst (STEP g a)))%nat
  /\ (count is_pull (fst (STEP g a)) + held (snd (STEP g a))
      <= count is_emit (fst (STEP g a)) + 1)%nat.
Proof. step_cases g a; cbn; repeat split; (exact I || lia). Qed.

Lemma run_pulls (sched : list action) :
  forall g,
    (count is_pull (RUN g sched) <= count_next sched)%nat
    /\ (count is_emit (RUN g sched) <= count is_pull (RUN g sched))%nat
    /\ (count is_pull (RUN g sched)
        <= count is_emit (RUN g sched)
           + match g with Finished => 0 | _ => 1 end)%nat.
Proof.
  induction sched as [|a sched IH]; intros g.
  - cbn. repeat split; lia.
  - rewrite run_cons, !count_app.
    destruct (step_pulls g a) as (H1 & H2 & H3).
    destruct (IH (snd (STEP g a))) as (I1 & I2 & I3).
    assert (Hn : count_next (a :: sched)
                 = ((match a with Next => 1 | Close => 0 end) + count_next sched)%nat)
      by (unfold count_next; now destruct a).
    rewrite Hn. repeat split; [lia|lia|].
    revert H1 H2 H3 I3. step_cases g a; cbn; lia.
Qed.

(** X4. The generator is a strict pull: for every schedule, the engine is
    pulled at most once per call of [next] (never on [close], never ahead
    of the consumer), every message comes from a pull of its own, and at
    most one pull (the one that finds the engine at its end) gives no
    message. *)
Theorem engine_pulled_only_on_demand
    (b : string) (sid sfi qtm : pyval) (sched : list action) :
  let tr := RUN (gen_track_with_mask_stream b sid sfi qtm) sched in
  (count is_pull tr <= count_next sched)%nat
  /\ (List.length (emitted tr) <= count is_pull tr)%nat
  /\ (count is_pull tr <= List.length (emitted tr) + 1)%nat.
Proof.
  intros tr. unfold tr. rewrite length_emitted.
  destruct (run_pulls sched (gen_track_with_mask_stream b sid sfi qtm))
    as (H1 & H2 & H3).
  cbn [gen_track_with_mask_stream] in *. repeat split; lia.
Qed.

End GeneratorInvariants.

(** ** The stream against the engine's sequence *)

Section StreamScenarios.

Context {chunk : Type} (to_json : chunk -> string).
Context {E : Type} (propagate : PropagateInVideoRequest -> E).
Context (enext : E -> pulled chunk E).

Local Notation RUN := (run to_json propagate enext).
Local Notation STATE := (run_state to_json propagate enext).
Local Notation WIRE := (wire to_json).
Local Notation PRODUCES := (produces enext).
Local Notation CALL := (wsgi_call to_json propagate enext).

Lemma count_repeat_stop (p : event -> bool) (n : nat) :
  p Stop = false -> count p (repeat Stop n) = 0%nat.
Proof.
  intros Hp. unfold count. induction n as [|n IH]; [reflexivity|].
  cbn. now rewrite Hp.
Qed.

Lemma in_repeat_stop (ev : event) (n : nat) : In ev (repeat Stop n) -> ev = Stop.
Proof. intros H. now apply repeat_spec in H. Qed.

Lemma suspended_pulls_bounded (sched : list action) :
  forall b e items fin,
    PRODUCES e items fin ->
    (count is_pull (RUN (Suspended b e) sched) <= S (List.length items))%nat.
Proof.
  induction sched as [|a sched IH]; intros b e items fin Hp; [cbn; lia|].
  destruct a.
  - inversion Hp as [e0 He|e0 x He|e0 c e' l fin0 He Hl]; subst.
    + rewrite (run_suspended_exhausted _ _ _ _ _ _ He), run_finished_stops.
      rewrite !count_cons, count_repeat_stop by reflexivity. cbn. lia.
    + rewrite (run_suspended_failed _ _ _ _ _ _ _ He), run_finished_stops.
      rewrite !count_cons, count_repeat_stop by reflexivity. cbn. lia.
    + rewrite (run_suspended_item _ _ _ _ _ _ _ _ He), !count_cons.
      pose proof (IH b e' l fin Hl). cbn in *. lia.
  - rewrite run_suspended_close, run_finished_stops.
    rewrite !count_cons, count_repeat_stop by reflexivity. cbn. lia.
Qed.

(** X5. When the engine has [n] results and then ends, in whatever way,
    the generator pulls it at most [n + 1] times, whatever the consumer
    does: the iterator is never advanced again once it has reported its end
    or raised. *)
Theorem engine_not_pulled_past_its_end
    (b : string) (sid sfi qtm : pyval) (items : list chunk) (fin : option exn)
    (sched : list action) :
  PRODUCES (propagate (request_of sid sfi qtm)) items fin ->
  (count is_pull (RUN (gen_track_with_mask_stream b sid sfi qtm) sched)
   <= S (List.length items))%nat.
Proof.
  intros Hp. unfold gen_track_with_mask_stream.
  destruct sched as [|[|] sched].
  - cbn. lia.
  - rewrite run_created_next, !count_cons. cbn [is_pull Nat.add].
    exact (suspended_pulls_bounded (Next :: sched) b _ items fin Hp).
  - change (RUN (Created b sid sfi qtm) (Close :: sched)) with (RUN Finished sched).
    rewrite run_finished_stops, count_repeat_stop by reflexivity. lia.
Qed.

Lemma suspended_errors (sched : list action) :
  forall b e items fin,
    PRODUCES e items fin ->
    (forall y, In (Error y) (RUN (Suspended b e) sched) -> fin = Some y)
    /\ (count is_error (RUN (Suspended b e) sched) <= 1)%nat.
Proof.
  induction sched as [|a sched IH]; intros b e items fin Hp.
  - cbn. split; [contradiction|lia].
  - destruct a.
    + inversion Hp as [e0 He|e0 x He|e0 c e' l fin0 He Hl]; subst.
      * rewrite (run_suspended_exhausted _ _ _ _ _ _ He), run_finished_stops.
        rewrite !count_cons, count_repeat_stop by reflexivity. split; [|cbn; lia].
        intros y [Hy|[Hy|[Hy|Hy%in_repeat_stop]]]; discriminate.
      * rewrite (run_suspended_failed _ _ _ _ _ _ _ He), run_finished_stops.
        rewrite !count_cons, count_repeat_stop by reflexivity. split; [|cbn; lia].
        intros y [Hy|[Hy|[Hy|Hy%in_repeat_stop]]]; try discriminate.
        now inversion Hy.
      * rewrite (run_suspended_item _ _ _ _ _ _ _ _ He), !count_cons.
        destruct (IH b e' l fin Hl) as [Hin Hcount]. split; [|cbn; lia].
        intros y [Hy|[Hy|Hy]]; try discriminate. now apply Hin.
    + rewrite run_suspended_close, run_finished_stops.
      rewrite !count_cons, count_repeat_stop by reflexivity. split; [|cbn; lia].
      intros y [Hy|Hy%in_repeat_stop]; discriminate.
Qed.

(** X7. The generator neither raises on its own nor changes an exception of
    the engine: when the engine yields its results and then ends, the only
    exception a consumer can ever see is the one the engine ended with, it is
    seen at most once, and a consumer of an engine that ends normally sees
    none. *)
Theorem engine_error_reaches_consumer_unchanged
    (b : string) (sid sfi qtm : pyval) (items : list chunk) (fin : option exn)
    (sched : list action) :
  PRODUCES (propagate (request_of sid sfi qtm)) items fin ->
  let tr := RUN (gen_track_with_mask_stream b sid sfi qtm) sched in
  (forall y, In (Error y) tr -> fin = Some y)
  /\ (count is_error tr <= 1)%nat
  /\ (fin = None -> count is_error tr = 0%nat).
Proof.
  intros Hp tr.
  assert (Hmain : (forall y, In (Error y) tr -> fin = Some y)
                  /\ (count is_error tr <= 1)%nat).
  { unfold tr, gen_track_with_mask_stream. destruct sched as [|[|] sched].
    - cbn. split; [contradiction|lia].
    - rewrite run_created_next, !count_cons. cbn [is_error Nat.add].
      destruct (suspended_errors (Next :: sched) b _ items fin Hp) as [Hin Hc].
      split; [|exact Hc].
      intros y [Hy|[Hy|[Hy|[Hy|Hy]]]]; try discriminate. now apply Hin.
    - change (RUN (Created b sid sfi qtm) (Close :: sched)) with (RUN Finished sched).
      rewrite run_finished_stops, count_repeat_stop by reflexivity.
      split; [|lia]. intros y Hy%in_repeat_stop. discriminate. }
  destruct Hmain as [Hin Hc]. split; [exact Hin|]. split; [exact Hc|].
  intros Hnone. subst fin.
  assert (Hnoerr : forall l, (forall y, In (Error y) l -> None = Some y) ->
                             count is_error l = 0%nat).
  { induction l as [|ev l IHl]; intros Hl; [reflexivity|].
    rewrite count_cons, IHl by (intros y Hy; apply Hl; now right).
    destruct ev; try reflexivity.
    specialize (Hl e (or_introl eq_refl)). discriminate. }
  apply Hnoerr, Hin.
Qed.

Lemma suspended_disconnect (k : nat) (more : list action) :
  forall b e items fin,
    PRODUCES e items fin ->
    (k <= List.length items)%nat ->
    RUN (Suspended b e) (repeat Next k ++ Close :: more)
    = flat_map (fun c => [Pull; Emit (WIRE b c)]) (firstn k items)
        ++ Release :: repeat Stop (count_next more).
Proof.
  induction k as [|k IH]; intros b e items fin Hp Hk.
  - cbn [repeat app firstn flat_map].
    now rewrite run_suspended_close, run_finished_stops.
  - inversion Hp as [e0 He|e0 x He|e0 c e' l fin0 He Hl]; subst;
      try (cbn in Hk; lia).
    change (repeat Next (S k) ++ Close :: more)
      with (Next :: (repeat Next k ++ Close :: more)).
    rewrite (run_suspended_item _ _ _ _ _ _ _ _ He).
    rewrite (IH b e' l fin Hl) by (cbn in Hk; lia). reflexivity.
Qed.

(** X8. A consumer that leaves after [k] messages, [k] at least 1 and at
    most the number of results the engine has: the trace is the
    acquisition, the request logged and handed to the engine, [k] pulls
    each followed by its message, and the release at the [close]; the
    engine is not pulled for a result nobody asked for, and whatever the
    consumer calls afterwards only ends the iteration. *)
Theorem consumer_leaves_early
    (b : string) (sid sfi qtm : pyval) (items : list chunk) (fin : option exn)
    (k : nat) (more : list action) :
  PRODUCES (propagate (request_of sid sfi qtm)) items fin ->
  (1 <= k <= List.length items)%nat ->
  RUN (gen_track_with_mask_stream b sid sfi qtm) (repeat Next k ++ Close :: more)
  = Acquire :: LogInfo (request_of sid sfi qtm) :: PrintFlush (request_of sid sfi qtm)
      :: EngineCall (request_of sid sfi qtm)
      :: flat_map (fun c => [Pull; Emit (WIRE b c)]) (firstn k items)
      ++ Release :: repeat Stop (count_next more).
Proof.
  intros Hp [Hk1 Hk2]. unfold gen_track_with_mask_stream.
  destruct k as [|k]; [lia|].
  change (repeat Next (S k) ++ Close :: more)
    with (Next :: (repeat Next k ++ Close :: more)).
  rewrite run_created_next.
  change (Next :: (repeat Next k ++ Close :: more))
    with (repeat Next (S k) ++ Close :: more).
  now rewrite (suspended_disconnect (S k) more b _ items fin Hp Hk2).
Qed.

Section Unbounded.

(** An engine whose sequence never ends. *)
Hypothesis Hinf : forall e, exists c e', enext e = Item c e'.

Lemma suspended_unbounded_state (n : nat) :
  forall b e, held (STATE (Suspended b e) (repeat Next n)) = 1%nat
              /\ count is_release (RUN (Suspended b e) (repeat Next n)) = 0%nat
              /\ List.length (emitted (RUN (Suspended b e) (repeat Next n))) = n
              /\ count after_scope (RUN (Suspended b e) (repeat Next n)) = 0%nat.
Proof.
  induction n as [|n IH]; intros b e; [now cbn|].
  destruct (Hinf e) as (c & e' & He).
  cbn [repeat run_state]. rewrite (run_suspended_item _ _ _ _ _ _ _ _ He).
  assert (Hs : snd (step to_json propagate enext (Suspended b e) Next) = Suspended b e')
    by (cbn; unfold resume_loop; now rewrite He).
  rewrite Hs. destruct (IH b e') as (H1 & H2 & H3 & H4).
  rewrite !count_cons, !length_emitted in *. rewrite !count_cons.
  cbn [is_release is_emit after_scope Nat.add]. repeat split; lia.
Qed.

(** X9. On an engine whose sequence never ends, the stream never ends by
    itself: [n + 1] calls of [next] give [n + 1] messages, the consumer
    sees neither the end of the iteration nor an error, and the context is
    still held; it is released, once, when the consumer closes the
    generator. *)
Theorem unbounded_stream_ends_only_on_close
    (b : string) (sid sfi qtm : pyval) (n : nat) :
  let g := gen_track_with_mask_stream b sid sfi qtm in
  List.length (emitted (RUN g (repeat Next (S n)))) = S n
  /\ count after_scope (RUN g (repeat Next (S n))) = 0%nat
  /\ count is_release (RUN g (repeat Next (S n))) = 0%nat
  /\ held (STATE g (repeat Next (S n))) = 1%nat
  /\ count is_release (RUN g (repeat Next (S n) ++ [Close])) = 1%nat.
Proof.
  intros g. unfold g, gen_track_with_mask_stream.
  destruct (suspended_unbounded_state (S n) b (propagate (request_of sid sfi qtm)))
    as (H1 & H2 & H3 & H4).
  assert (Hst : STATE (Created b sid sfi qtm) (repeat Next (S n))
                = STATE (Suspended b (propagate (request_of sid sfi qtm)))
                    (repeat Next (S n))).
  { cbn [repeat run_state step gen_next]. unfold resume_loop.
    fold (request_of sid sfi qtm).
    now destruct (enext (propagate (request_of sid sfi qtm))). }
  assert (Hrun : RUN (Created b sid sfi qtm) (repeat Next (S n))
                 = Acquire :: LogInfo (request_of sid sfi qtm)
                     :: PrintFlush (request_of sid sfi qtm)
                     :: EngineCall (request_of sid sfi qtm)
                     :: RUN (Suspended b (propagate (request_of sid sfi qtm)))
                          (repeat Next (S n)))
    by apply run_created_next.
  rewrite run_app, Hst, Hrun, count_app, !count_cons, !length_emitted, !count_cons.
  rewrite length_emitted in H3.
  cbn [is_emit is_release after_scope Nat.add].
  set (T := RUN (Suspended b (propagate (request_of sid sfi qtm)))
              (repeat Next (S n))) in *.
  clearbody T.
  destruct (STATE (Suspended b (propagate (request_of sid sfi qtm)))
              (repeat Next (S n))) as [| b' e' |]; try (cbn in H1; lia).
  rewrite run_suspended_close. cbn [run]. rewrite count_cons.
  change (count is_release []) with 0%nat. cbn [is_release held].
  repeat split; lia.
Qed.

End Unbounded.

(** X10. A whole request, from the payload to the end of the stream: for a
    payload that passes validation and an engine that yields its results
    and ends, the server that consumes the response to its end sees the
    200 announcement with the streaming content type, the acquisition, the
    request built from the payload logged and handed to the engine, one
    pull and one message per result in order, the last pull, the release
    and the engine's end; further calls only end the iteration. *)
Theorem request_to_end_of_stream
    (d : list (string * pyval)) (items : list chunk) (fin : option exn)
    (more : list action) :
  passes_validation (PDict d) = true ->
  let req := request_of (dict_get d "session_id" PNone)
               (dict_get d "start_frame_index" (PInt 0))
               (dict_get d "quick_test_mode" (PBool false)) in
  PRODUCES (propagate req) items fin ->
  exists r,
    propagate_in_video (PDict d) = Ok r
    /\ CALL r (repeat Next (S (List.length items)) ++ more)
       = StartResponse 200 (Some STREAM_CONTENT_TYPE)
           :: Acquire :: LogInfo req :: PrintFlush req :: EngineCall req
           :: flat_map (fun c => [Pull; Emit (WIRE "frame" c)]) items
           ++ Pull :: Release :: ending fin :: repeat Stop (count_next more).
Proof.
  intros Hv req Hp. subst req.
  destruct (propagate_in_video_valid (E := E) _ Hv) as (d' & Hd & Heq).
  inversion Hd; subst d'.
  eexists. split; [exact Heq|].
  unfold wsgi_call. cbn [status mimetype response Response_stream].
  change (repeat Next (S (List.length items)) ++ more)
    with (Next :: (repeat Next (List.length items) ++ more)).
  rewrite run_created_next.
  change (Next :: (repeat Next (List.length items) ++ more))
    with (repeat Next (S (List.length items)) ++ more).
  now rewrite (run_to_end to_json propagate enext "frame" more items _ fin Hp),
    run_finished_stops.
Qed.

End StreamScenarios.

(** ** Further properties of the view functions *)

Section HandlerOutcomes.

Context {E : Type}.

(** The outcomes of the view function once [request.json] has given a
    value, and the values that get them. *)
Lemma propagate_in_video_cases (data : pyval) :
  (propagate_in_video (E := E) data = Ok (make_response "Invalid JSON" 400)
   <-> data = PNone)
  /\ (propagate_in_video (E := E) data = Raise (AttributeError "get")
      <-> data <> PNone /\ forall d, data <> PDict d)
  /\ (forall e, propagate_in_video (E := E) data = Raise e -> e = AttributeError "get")
  /\ (propagate_in_video (E := E) data = Ok (make_response "Missing session_id" 400)
      <-> exists d, data = PDict d /\ dict_get d "session_id" PNone = PNone)
  /\ ((exists r, propagate_in_video (E := E) data = Ok r /\ status r = 200%Z)
      <-> passes_validation data = true).
Proof.
  destruct data as [| bo | z | f | s | l | d];
    try (cbn; repeat split;
         try discriminate; try congruence;
         try (intros (d0 & Hd & _); discriminate);
         try (intros (r & Hr & _); discriminate);
         try (intros [H _]; congruence);
         intros; (congruence || (inversion H; reflexivity))).
  - cbn. repeat split; try discriminate; try congruence.
    + intros [H _]. congruence.
    + intros (d0 & Hd & _). discriminate.
    + intros (r & Hr & Hs). inversion Hr; subst. discriminate.
  - rewrite propagate_in_video_dict.
    destruct (is_none (dict_get d "session_id" PNone)) eqn:Hn.
    + apply is_none_true in Hn as Hsid.
      repeat split; try discriminate.
      * intros [_ H]. now specialize (H d).
      * intros _. now exists d.
      * intros (r & Hr & Hs). inversion Hr; subst. discriminate.
      * cbn. rewrite Hn. discriminate.
    + assert (Hsid : dict_get d "session_id" PNone <> PNone)
        by (intros H; apply is_none_true in H; congruence).
      repeat split; try discriminate.
      * intros [_ H]. now specialize (H d).
      * intros (d0 & Hd & H0). inversion Hd; subst. contradiction.
      * intros _. cbn. now rewrite Hn.
      * intros _. eexists. split; reflexivity.
Qed.

(** X11. The outcomes of the view function, from its first statement, and
    the requests that get them: the exception of [request.json]
    ([BadRequest], [UnsupportedMediaType]) goes through unchanged, exactly
    when [request.json] raises it; otherwise, by the value of
    [request.json]: the answer 400 [Invalid JSON] exactly for [None]; an
    [AttributeError], and no answer, exactly for a value that is neither
    [None] nor an object (a list, a string, a number, a boolean), the only
    exception of the function's own code; the answer 400
    [Missing session_id] exactly for an object whose [session_id] is absent
    or null; and an answer of status 200 exactly for the values that pass
    validation. *)
Theorem propagate_in_video_outcomes (j : json_property) :
  (forall h, propagate_in_video_request (E := E) j = Aborted h <-> j = JsonRaises h)
  /\ (propagate_in_video_request (E := E) j
      = Answered (make_response "Invalid JSON" 400)
      <-> j = JsonValue PNone)
  /\ (propagate_in_video_request (E := E) j = Raised (AttributeError "get")
      <-> exists data, j = JsonValue data /\ data <> PNone /\ forall d, data <> PDict d)
  /\ (forall e, propagate_in_video_request (E := E) j = Raised e
                -> e = AttributeError "get")
  /\ (propagate_in_video_request (E := E) j
      = Answered (make_response "Missing session_id" 400)
      <-> exists d, j = JsonValue (PDict d) /\ dict_get d "session_id" PNone = PNone)
  /\ ((exists r, propagate_in_video_request (E := E) j = Answered r
                 /\ status r = 200%Z)
      <-> exists data, j = JsonValue data /\ passes_validation data = true).
Proof.
  destruct j as [data|h0].
  - destruct (propagate_in_video_cases data) as (H1 & H2 & H3 & H4 & H5).
    unfold propagate_in_video_request.
    split; [|split; [|split; [|split; [|split]]]].
    + intros h. destruct (propagate_in_video data); split; discriminate.
    + split.
      * intros H. f_equal. apply H1.
        destruct (propagate_in_video data); [congruence|discriminate].
      * intros Hj. inversion Hj; subst data. reflexivity.
    + split.
      * intros H. exists data. split; [reflexivity|]. apply H2.
        destruct (propagate_in_video data); [discriminate|congruence].
      * intros (data' & Hj & Hd). inversion Hj; subst data'.
        apply H2 in Hd. now rewrite Hd.
    + intros e He. apply H3.
      destruct (propagate_in_video data); [discriminate|congruence].
    + split.
      * intros H.
        assert (Hm : propagate_in_video (E := E) data
                     = Ok (make_response "Missing session_id" 400))
          by (destruct (propagate_in_video data); [congruence|discriminate]).
        apply H4 in Hm as (d & -> & Hd). exists d. split; [reflexivity|exact Hd].
      * intros (d & Hj & Hd). inversion Hj; subst data.
        assert (Hm : propagate_in_video (E := E) (PDict d)
                     = Ok (make_response "Missing session_id" 400))
          by (apply H4; eauto).
        now rewrite Hm.
    + split.
      * intros (r & Hr & Hs). exists data. split; [reflexivity|]. apply H5.
        exists r. split; [|exact Hs].
        destruct (propagate_in_video data); [congruence|discriminate].
      * intros (data' & Hj & Hd). inversion Hj; subst data'.
        apply H5 in Hd as (r & Hr & Hs). exists r. now rewrite Hr.
  - cbn. split; [|split; [|split; [|split; [|split]]]].
    + intros h. split; congruence.
    + split; discriminate.
    + split; [discriminate|]. intros (data & Hj & _). discriminate.
    + discriminate.
    + split; [discriminate|]. intros (d & Hj & _). discriminate.
    + split.
      * intros (r & Hr & _). discriminate.
      * intros (data & Hj & _). discriminate.
Qed.

(** X12. The view function reads three keys and nothing else: two objects
    that agree on [session_id], [start_frame_index] and [quick_test_mode]
    (each present with the same value in both, or absent from both) get the
    same answer, whatever else they contain and in whatever order. *)
Theorem only_three_keys_are_read (d d' : list (string * pyval)) :
  dict_lookup d "session_id" = dict_lookup d' "session_id" ->
  dict_lookup d "start_frame_index" = dict_lookup d' "start_frame_index" ->
  dict_lookup d "quick_test_mode" = dict_lookup d' "quick_test_mode" ->
  propagate_in_video (E := E) (PDict d) = propagate_in_video (E := E) (PDict d').
Proof.
  intros H1 H2 H3. rewrite !propagate_in_video_dict.
  unfold dict_get. now rewrite H1, H2, H3.
Qed.

End HandlerOutcomes.

(** ** The further properties on concrete runs *)

Lemma engine_not_pulled_past_its_end_witness :
  let engine := sample_engine (frames_of [0; 1]%Z) None in
  produces list_next (engine (request_of (PStr "s1") (PInt 0) (PBool false)))
    (frames_of [0; 1]%Z) None
  /\ (count is_pull
        (run sample_to_json engine list_next
           (gen_track_with_mask_stream "frame" (PStr "s1") (PInt 0) (PBool false))
           [Next; Next; Next; Next; Next; Close; Next])
      <= 3)%nat.
Proof.
  intros engine.
  pose proof (list_engine_produces (frames_of [0; 1]%Z) None) as Hp.
  split; [exact Hp|].
  exact (engine_not_pulled_past_its_end sample_to_json engine list_next
           "frame" (PStr "s1") (PInt 0) (PBool false) (frames_of [0; 1]%Z) None
           [Next; Next; Next; Next; Next; Close; Next] Hp).
Defined.

Lemma engine_error_reaches_consumer_unchanged_witness :
  let engine := sample_engine (frames_of [0; 1]%Z) (Some (EngineError "InferenceFailure")) in
  let tr := run sample_to_json engine list_next
              (gen_track_with_mask_stream "frame" (PStr "s1") (PInt 0) (PBool false))
              [Next; Next; Next; Next; Close] in
  produces list_next (engine (request_of (PStr "s1") (PInt 0) (PBool false)))
    (frames_of [0; 1]%Z) (Some (EngineError "InferenceFailure"))
  /\ In (Error (EngineError "InferenceFailure")) tr
  /\ (forall y, In (Error y) tr -> Some (EngineError "InferenceFailure") = Some y)
  /\ (count is_error tr <= 1)%nat.
Proof.
  intros engine tr.
  pose proof (list_engine_produces (frames_of [0; 1]%Z)
                (Some (EngineError "InferenceFailure"))) as Hp.
  destruct (engine_error_reaches_consumer_unchanged sample_to_json engine list_next
              "frame" (PStr "s1") (PInt 0) (PBool false) (frames_of [0; 1]%Z)
              (Some (EngineError "InferenceFailure"))
              [Next; Next; Next; Next; Close] Hp) as (Hin & Hc & _).
  split; [exact Hp|]. split; [|split; [exact Hin|exact Hc]].
  cbn. tauto.
Defined.

Lemma consumer_leaves_early_witness :
  let engine := sample_engine (frames_of [5; 6; 7]%Z) None in
  let req := request_of (PStr "s1") (PInt 5) (PBool false) in
  produces list_next (engine req) (frames_of [5; 6; 7]%Z) None
  /\ (1 <= 1 <= 3)%nat
  /\ run sample_to_json engine list_next
       (gen_track_with_mask_stream "frame" (PStr "s1") (PInt 5) (PBool false))
       ([Next] ++ [Close; Next])
     = [Acquire; LogInfo req; PrintFlush req; EngineCall req; Pull;
        Emit (wire sample_to_json "frame" {| frame_index := 5; masks := [] |});
        Release; Stop].
Proof.
  intros engine req.
  pose proof (list_engine_produces (frames_of [5; 6; 7]%Z) None) as Hp.
  split; [exact Hp|]. split; [lia|].
  exact (consumer_leaves_early sample_to_json engine list_next
           "frame" (PStr "s1") (PInt 5) (PBool false) (frames_of [5; 6; 7]%Z) None
           1 [Next] Hp (conj (le_n 1) (le_S _ _ (le_S _ _ (le_n 1))))).
Defined.

Lemma unbounded_stream_ends_only_on_close_witness :
  (forall e, exists c e', counting_next e = Item c e')
  /\ List.length
       (emitted (run nat_to_json (fun _ => 0%nat) counting_next
                   (gen_track_with_mask_stream "frame" (PStr "s1") (PInt 0) (PBool false))
                   (repeat Next 3))) = 3%nat
  /\ count is_release
       (run nat_to_json (fun _ => 0%nat) counting_next
          (gen_track_with_mask_stream "frame" (PStr "s1") (PInt 0) (PBool false))
          (repeat Next 3 ++ [Close])) = 1%nat.
Proof.
  assert (Hinf : forall e, exists c e', counting_next e = Item c e')
    by (intros e; exists e, (S e); reflexivity).
  split; [exact Hinf|].
  destruct (unbounded_stream_ends_only_on_close nat_to_json (fun _ => 0%nat)
              counting_next Hinf "frame" (PStr "s1") (PInt 0) (PBool false) 2)
    as (Hlen & _ & _ & _ & Hrel).
  split; [exact Hlen|exact Hrel].
Defined.

(** The request of the scenario: three results for the frames 5, 6, 7. *)
Lemma request_to_end_of_stream_witness :
  let d := [("session_id", PStr "s1"); ("start_frame_index", PInt 5)] in
  let req := request_of (PStr "s1") (PInt 5) (PBool false) in
  let engine := sample_engine (frames_of [5; 6; 7]%Z) None in
  passes_validation (PDict d) = true
  /\ produces list_next (engine req) (frames_of [5; 6; 7]%Z) None
  /\ exists r,
       propagate_in_video (PDict d) = Ok r
       /\ wsgi_call sample_to_json engine list_next r (repeat Next 4 ++ [Close])
          = StartResponse 200 (Some STREAM_CONTENT_TYPE)
              :: Acquire :: LogInfo req :: PrintFlush req :: EngineCall req
              :: flat_map (fun c => [Pull; Emit (wire sample_to_json "frame" c)])
                   (frames_of [5; 6; 7]%Z)
              ++ [Pull; Release; Stop].
Proof.
  intros d req engine.
  pose proof (list_engine_produces (frames_of [5; 6; 7]%Z) None) as Hp.
  split; [reflexivity|]. split; [exact Hp|].
  exact (request_to_end_of_stream sample_to_json engine list_next d
           (frames_of [5; 6; 7]%Z) None [Close] eq_refl Hp).
Defined.

Lemma only_three_keys_are_read_witness :
  let d := [("client", PStr "web"); ("quick_test_mode", PBool true);
            ("session_id", PStr "s1")] in
  let d' := [("session_id", PStr "s1"); ("quick_test_mode", PBool true);
             ("trace", PList [PInt 1])] in
  dict_lookup d "session_id" = dict_lookup d' "session_id"
  /\ dict_lookup d "start_frame_index" = dict_lookup d' "start_frame_index"
  /\ dict_lookup d "quick_test_mode" = dict_lookup d' "quick_test_mode"
  /\ propagate_in_video (E := list_engine FrameResult) (PDict d)
     = propagate_in_video (E := list_engine FrameResult) (PDict d').
Proof.
  intros d d'.
  split; [reflexivity|]. split; [reflexivity|]. split; [reflexivity|].
  exact (only_three_keys_are_read (E := list_engine FrameResult) d d'
           eq_refl eq_refl eq_refl).
Defined.
